(** * misaka_danmu_server: task orchestration, codec and reorder engine

    A shallow embedding of [src/tasks.py] and the properties its
    specification states about it.  Python values are embedded as follows.

    - [int] is [Z] (unbounded).
    - [str] made of ASCII digits, signs and fixed literals is [string];
      the comment codec, which handles arbitrary text, uses lists of
      Unicode code points ([ustr]).
    - A coroutine is a function in the monad [M]: it threads a [World]
      (catalog, session, files, journal) and ends in a value or a raised
      exception.  Every awaited call of a collaborator may raise: the
      fault schedule [faults] says which call (counted by the world's
      clock) raises what.

    The first part holds the definitions, the second part the proofs. *)

From Stdlib Require Import ZArith NArith QArith String Ascii List Lia Bool.
From stdpp Require Import base option list sorting gmap strings.

Open Scope Z_scope.

(* ================================================================= *)
(** * Part I: definitions *)
(* ================================================================= *)

(* ----------------------------------------------------------------- *)
(** ** Python built-ins on integers and digit strings *)

Module Py.

(** Truthiness of an optional string ([None] and [''] are falsy). *)
Definition truthy (s : option string) : bool :=
  match s with
  | None => false
  | Some s => negb (String.eqb s "")
  end.

Definition digit_char (d : Z) : ascii := ascii_of_nat (48 + Z.to_nat d).

(** Decimal digits of a non-negative integer, most significant first;
    [fuel] bounds the number of digits after the first. *)
Fixpoint digits_go (fuel : nat) (n : Z) (acc : string) : string :=
  let acc' := String (digit_char (n mod 10)) acc in
  match fuel with
  | O => acc'
  | S f => if Z.ltb n 10 then acc' else digits_go f (n / 10) acc'
  end.

Definition str_nat (n : Z) : string :=
  digits_go (Z.to_nat (Z.log2 n)) n "".

(** [str(n)] *)
Definition str (n : Z) : string :=
  if Z.ltb n 0 then "-" +:+ str_nat (- n) else str_nat n.

Fixpoint zeros (k : nat) : string :=
  match k with
  | O => ""
  | S k => String "0" (zeros k)
  end.

Definition zfill (width : nat) (s : string) : string :=
  zeros (width - String.length s) +:+ s.

(** [format(n, '0<width>d')], the conversion behind [f"{n:06d}"]: the sign
    comes first and counts in the width, zeros fill up to the width, and
    a number with more digits than the width is not truncated. *)
Definition format_0d (width : nat) (n : Z) : string :=
  if Z.ltb n 0 then "-" +:+ zfill (width - 1) (str_nat (- n))
  else zfill width (str_nat n).

Definition is_digit (c : ascii) : bool :=
  (48 <=? nat_of_ascii c)%nat && (nat_of_ascii c <=? 57)%nat.

Definition digit_val (c : ascii) : Z := Z.of_nat (nat_of_ascii c) - 48.

Fixpoint int_digits (s : string) (acc : Z) : option Z :=
  match s with
  | EmptyString => Some acc
  | String c s' =>
      if is_digit c then int_digits s' (10 * acc + digit_val c) else None
  end.

(** [int(s)] on the strings an f-string of integers can produce: an
    optional leading sign followed by ASCII digits.  [None] is
    [ValueError].  (Surrounding blanks and digit-grouping underscores,
    which [int] also accepts, do not occur in such strings.) *)
Definition int (s : string) : option Z :=
  match s with
  | EmptyString => None
  | String c s' =>
      if Ascii.eqb c "-" then
        match s' with
        | EmptyString => None
        | _ => option_map Z.opp (int_digits s' 0)
        end
      else if Ascii.eqb c "+" then
        match s' with
        | EmptyString => None
        | _ => int_digits s' 0
        end
      else int_digits s 0
  end.

(** The fixed-width numeral of [n]: its [width] low decimal digits. *)
Fixpoint fixed (width : nat) (n : Z) : string :=
  match width with
  | O => ""
  | S w => fixed w (n / 10) +:+ String (digit_char (n mod 10)) ""
  end.

End Py.

(* ----------------------------------------------------------------- *)
(** ** Episode identity (tasks.py, line 768) *)

(** [int(f"25{anime_id:06d}{source_order:02d}{new_index:04d}")] *)
Definition new_id (anime_id source_order new_index : Z) : option Z :=
  Py.int ("25" +:+ Py.format_0d 6 anime_id +:+ Py.format_0d 2 source_order
               +:+ Py.format_0d 4 new_index).

(* ----------------------------------------------------------------- *)
(** ** Range compression (tasks.py, lines 61-83) *)

(** [sorted(list(set(episode_indices)))] *)
Definition sorted_set (episode_indices : list Z) : list Z :=
  merge_sort Z.le (remove_dups episode_indices).

(** [str(start) if start == end else f"{start}-{end}"] *)
Definition range_token (start end_ : Z) : string :=
  if Z.eqb start end_ then Py.str start
  else Py.str start +:+ "-" +:+ Py.str end_.

(** The [for i in range(1, len(indices))] loop together with the append
    that follows it; [rest] is [indices[i:]]. *)
Fixpoint range_loop (rest : list Z) (start end_ : Z) (ranges : list string)
  : list string :=
  match rest with
  | [] => ranges ++ [range_token start end_]
  | x :: rest' =>
      if Z.eqb x (end_ + 1) then range_loop rest' start x ranges
      else range_loop rest' x x (ranges ++ [range_token start end_])
  end.

Definition _generate_episode_range_string (episode_indices : list Z) : string :=
  match episode_indices with
  | [] => "无"
  | _ =>
      match sorted_set episode_indices with
      | [] => "无"
      | first :: rest => String.concat ", " (range_loop rest first first [])
      end
  end.

(** The runs behind the tokens: the same loop, keeping each
    [(start, end)] pair instead of its rendering. *)
Fixpoint runs_loop (rest : list Z) (start end_ : Z) : list (Z * Z) :=
  match rest with
  | [] => [(start, end_)]
  | x :: rest' =>
      if Z.eqb x (end_ + 1) then runs_loop rest' start x
      else (start, end_) :: runs_loop rest' x x
  end.

Definition covers (r : Z * Z) (x : Z) : Prop := r.1 <= x <= r.2.

(* ----------------------------------------------------------------- *)
(** ** Text of arbitrary content *)

(** A Python [str] as the list of its Unicode code points. *)
Definition ustr : Type := list N.

(** An ASCII literal. *)
Definition u (s : string) : ustr :=
  map N_of_ascii (list_ascii_of_string s).

(** [s.split(sep)] for a one-character separator *)
Fixpoint split (sep : N) (s : ustr) : list ustr :=
  match s with
  | [] => [[]]
  | c :: s' =>
      if N.eqb c sep then [] :: split sep s'
      else match split sep s' with
           | part :: parts => (c :: part) :: parts
           | [] => [[c]]
           end
  end.

(** [sep.join(parts)] *)
Fixpoint join (sep : ustr) (parts : list ustr) : ustr :=
  match parts with
  | [] => []
  | [x] => x
  | x :: rest => x ++ sep ++ join sep rest
  end.

(** [c in s] for a character [c] *)
Definition contains (c : N) (s : ustr) : bool := existsb (N.eqb c) s.

(** [l.insert(i, x)] for [i >= 0] *)
Definition list_insert_at {A} (i : nat) (x : A) (l : list A) : list A :=
  take i l ++ x :: drop i l.

(** [xml.sax.saxutils.escape]: [&], [>] and [<] become [&amp;], [&gt;]
    and [&lt;]. *)
Definition escape_char (c : N) : ustr :=
  if N.eqb c 38 then u "&amp;"
  else if N.eqb c 62 then u "&gt;"
  else if N.eqb c 60 then u "&lt;"
  else [c].

Definition xml_escape (data : ustr) : ustr := flat_map escape_char data.

(* ----------------------------------------------------------------- *)
(** ** The comment codec: generation (tasks.py, lines 85-120) *)

Module dict.

(** A comment: a dict of which the codec reads the keys ['p'] (the packed
    attribute) and ['m'] (the text); [None] is an absent key. *)
Record comment : Type := mk { p : option ustr; m : option ustr }.

End dict.

Abbreviation comment := dict.comment.

(** Lines 107-111: the index of the first part that holds both brackets,
    or the number of parts. *)
Fixpoint find_tag (p_parts : list ustr) (i : nat) : option nat :=
  match p_parts with
  | [] => None
  | part :: rest =>
      if contains 91 part && contains 93 part then Some i
      else find_tag rest (S i)
  end.

Definition core_parts_count (p_parts : list ustr) : nat :=
  default (length p_parts) (find_tag p_parts 0).

(** Lines 104-116: the packed attribute as it is emitted. *)
Definition emit_p_attr (p_attr : ustr) : ustr :=
  let p_parts := split 44 p_attr in
  if Nat.eqb (core_parts_count p_parts) 3
  then join [44%N] (list_insert_at 2 (u "25") p_parts)
  else p_attr.

Definition default_p_attr : ustr := u "0,1,25,16777215".

(** Line 118: [f'  <d p="{p_attr}">{content}</d>'] *)
Definition d_element (c : comment) : ustr :=
  let content := xml_escape (default [] (dict.m c)) in
  let p_attr := emit_p_attr (default default_p_attr (dict.p c)) in
  u "  <d p=" ++ [34%N] ++ p_attr ++ [34%N] ++ u ">" ++ content ++ u "</d>".

Definition xml_declaration : ustr :=
  u "<?xml version=" ++ [34%N] ++ u "1.0" ++ [34%N] ++ u " encoding="
    ++ [34%N] ++ u "UTF-8" ++ [34%N] ++ u "?>".

Definition dandan_header (count : nat) : list ustr :=
  [xml_declaration;
   u "<i>";
   u "  <chatserver>danmu</chatserver>";
   u "  <chatid>0</chatid>";
   u "  <mission>0</mission>";
   u "  <maxlimit>" ++ u (Py.str (Z.of_nat count)) ++ u "</maxlimit>";
   u "  <source>kuyun</source>"].

Definition _generate_dandan_xml (comments : list comment) : ustr :=
  join [10%N]
    (dandan_header (length comments) ++ map d_element comments ++ [u "</i>"]).

(* ----------------------------------------------------------------- *)
(** ** A model of [xml.etree.ElementTree.iterparse]

    The parser is the standard library's (expat); it is modelled as a
    machine that reads one character at a time.  The model covers what
    the generator can emit and the errors nearby: one XML declaration as
    the generator writes it, elements with attributes, character data,
    the five predefined entities, line-end and attribute-value
    normalisation, and the well-formedness errors of these.  Anything
    else (comments, CDATA, DOCTYPE, processing instructions, character
    references, namespaces, non-ASCII names, a raw [>] in character
    data) ends the run as [Unmodelled]: the model says nothing there. *)

(** What the loop reads of an element at its ['end'] event: [elem.tag],
    [elem.get(...)] and [elem.text]. *)
Record element : Type := mkElement {
  tag : ustr;
  attrib : list (ustr * ustr);
  text : option ustr
}.

Record open_element : Type := mkOpen {
  o_tag : ustr;
  o_attrib : list (ustr * ustr);
  o_text : ustr;          (* character data before the first child *)
  o_has_child : bool
}.

Inductive mode : Type :=
| Content (after_cr : bool)
| TagStart
| StartName (name : ustr)
| InTag (name : ustr) (attrs : list (ustr * ustr)) (spaced : bool)
| AttrName (name : ustr) (attrs : list (ustr * ustr)) (key : ustr)
| AttrEq (name : ustr) (attrs : list (ustr * ustr)) (key : ustr)
| AttrQuote (name : ustr) (attrs : list (ustr * ustr)) (key : ustr)
| AttrValue (name : ustr) (attrs : list (ustr * ustr)) (key : ustr)
            (q : N) (val : ustr) (after_cr : bool)
| AttrRef (name : ustr) (attrs : list (ustr * ustr)) (key : ustr)
          (q : N) (val : ustr) (ent : ustr)
| EmptyClose (name : ustr) (attrs : list (ustr * ustr))
| EndName (name : ustr)
| EndSpace (name : ustr)
| TextRef (ent : ustr).

Record parser : Type := mkParser {
  p_mode : mode;
  p_stack : list open_element;
  p_root_done : bool;
  p_events : list element
}.

Inductive fed : Type :=
| Next (st : parser)
| NotWellFormed
| NotModelled.

(** The [Char] production of XML 1.0. *)
Definition is_xml_char (c : N) : bool :=
  N.eqb c 9 || N.eqb c 10 || N.eqb c 13
  || (N.leb 32 c && N.leb c 55295)
  || (N.leb 57344 c && N.leb c 65533)
  || (N.leb 65536 c && N.leb c 1114111).

Definition is_space (c : N) : bool :=
  N.eqb c 32 || N.eqb c 9 || N.eqb c 10 || N.eqb c 13.

(** ASCII name characters; the colon belongs to namespaces. *)
Definition is_name_start (c : N) : bool :=
  (N.leb 65 c && N.leb c 90) || (N.leb 97 c && N.leb c 122) || N.eqb c 95.

Definition is_name_char (c : N) : bool :=
  is_name_start c || (N.leb 48 c && N.leb c 57) || N.eqb c 45 || N.eqb c 46.

Definition ustr_eqb (a b : ustr) : bool := bool_decide (a = b).

(** The predefined entities. *)
Definition resolve_entity (ent : ustr) : option N :=
  if ustr_eqb ent (u "amp") then Some 38%N
  else if ustr_eqb ent (u "lt") then Some 60%N
  else if ustr_eqb ent (u "gt") then Some 62%N
  else if ustr_eqb ent (u "quot") then Some 34%N
  else if ustr_eqb ent (u "apos") then Some 39%N
  else None.

Definition set_mode (md : mode) (st : parser) : parser :=
  mkParser md (p_stack st) (p_root_done st) (p_events st).

(** Character data: it belongs to the text of the innermost open element
    until that element has a child (after which it is tail text, which
    the loop does not read); outside the root only blanks may occur. *)
Definition add_text (c : N) (md : mode) (st : parser) : fed :=
  match p_stack st with
  | [] => if is_space c then Next (set_mode md st) else NotWellFormed
  | top :: rest =>
      if o_has_child top then Next (set_mode md st)
      else Next (mkParser md
                   (mkOpen (o_tag top) (o_attrib top) (o_text top ++ [c]) false
                      :: rest)
                   (p_root_done st) (p_events st))
  end.

(** [elem.text]: [None] when the element has no character data before
    its first child. *)
Definition text_of (t : ustr) : option ustr :=
  match t with
  | [] => None
  | _ :: _ => Some t
  end.

Definition open_tag (name : ustr) (attrs : list (ustr * ustr)) (st : parser)
  : parser :=
  let stack :=
    match p_stack st with
    | [] => []
    | top :: rest =>
        mkOpen (o_tag top) (o_attrib top) (o_text top) true :: rest
    end in
  mkParser (Content false) (mkOpen name attrs [] false :: stack)
    (p_root_done st) (p_events st).

Definition close_tag (name : ustr) (st : parser) : fed :=
  match p_stack st with
  | [] => NotWellFormed
  | top :: rest =>
      if ustr_eqb (o_tag top) name
      then Next (mkParser (Content false) rest
                   (match rest with [] => true | _ => p_root_done st end)
                   (p_events st
                      ++ [mkElement (o_tag top) (o_attrib top)
                            (text_of (o_text top))]))
      else NotWellFormed
  end.

Definition off_model (c : N) : fed :=
  if N.leb 128 c || N.eqb c 58 then NotModelled else NotWellFormed.

Definition feed (st : parser) (c : N) : fed :=
  match p_mode st with
  | Content after_cr =>
      if negb (is_xml_char c) then NotWellFormed
      else if N.eqb c 60 then Next (set_mode TagStart st)
      else if N.eqb c 38 then
        match p_stack st with
        | [] => NotWellFormed
        | _ => Next (set_mode (TextRef []) st)
        end
      else if N.eqb c 62 then NotModelled
      else if N.eqb c 13 then add_text 10 (Content true) st
      else if N.eqb c 10 then
        if after_cr then Next (set_mode (Content false) st)
        else add_text 10 (Content false) st
      else add_text c (Content false) st
  | TagStart =>
      if N.eqb c 47 then Next (set_mode (EndName []) st)
      else if N.eqb c 63 || N.eqb c 33 then NotModelled
      else if is_name_start c then
        match p_stack st with
        | [] => if p_root_done st then NotWellFormed
                else Next (set_mode (StartName [c]) st)
        | _ => Next (set_mode (StartName [c]) st)
        end
      else off_model c
  | StartName name =>
      if is_name_char c then Next (set_mode (StartName (name ++ [c])) st)
      else if is_space c then Next (set_mode (InTag name [] true) st)
      else if N.eqb c 62 then Next (open_tag name [] st)
      else if N.eqb c 47 then Next (set_mode (EmptyClose name []) st)
      else off_model c
  | InTag name attrs spaced =>
      if is_space c then Next (set_mode (InTag name attrs true) st)
      else if N.eqb c 62 then Next (open_tag name attrs st)
      else if N.eqb c 47 then Next (set_mode (EmptyClose name attrs) st)
      else if is_name_start c then
        if spaced then Next (set_mode (AttrName name attrs [c]) st)
        else NotWellFormed
      else off_model c
  | AttrName name attrs key =>
      if is_name_char c then Next (set_mode (AttrName name attrs (key ++ [c])) st)
      else if N.eqb c 61 then Next (set_mode (AttrQuote name attrs key) st)
      else if is_space c then Next (set_mode (AttrEq name attrs key) st)
      else off_model c
  | AttrEq name attrs key =>
      if is_space c then Next st
      else if N.eqb c 61 then Next (set_mode (AttrQuote name attrs key) st)
      else NotWellFormed
  | AttrQuote name attrs key =>
      if is_space c then Next st
      else if N.eqb c 34 || N.eqb c 39
      then Next (set_mode (AttrValue name attrs key c [] false) st)
      else NotWellFormed
  | AttrValue name attrs key q val after_cr =>
      if negb (is_xml_char c) then NotWellFormed
      else if N.eqb c q then
        if ustr_eqb (take 3 key) (u "xml") then NotModelled
        else if bool_decide (key ∈ map fst attrs) then NotWellFormed
        else Next (set_mode (InTag name (attrs ++ [(key, val)]) false) st)
      else if N.eqb c 60 then NotWellFormed
      else if N.eqb c 38
      then Next (set_mode (AttrRef name attrs key q val []) st)
      else if N.eqb c 13
      then Next (set_mode (AttrValue name attrs key q (val ++ [32%N]) true) st)
      else if N.eqb c 10 then
        if after_cr
        then Next (set_mode (AttrValue name attrs key q val false) st)
        else Next (set_mode (AttrValue name attrs key q (val ++ [32%N]) false) st)
      else if N.eqb c 9
      then Next (set_mode (AttrValue name attrs key q (val ++ [32%N]) false) st)
      else Next (set_mode (AttrValue name attrs key q (val ++ [c]) false) st)
  | AttrRef name attrs key q val ent =>
      if N.eqb c 59 then
        match resolve_entity ent with
        | Some ch =>
            Next (set_mode (AttrValue name attrs key q (val ++ [ch]) false) st)
        | None => if contains 35 ent then NotModelled else NotWellFormed
        end
      else if is_name_char c || N.eqb c 35
      then Next (set_mode (AttrRef name attrs key q val (ent ++ [c])) st)
      else off_model c
  | EmptyClose name attrs =>
      if N.eqb c 62 then close_tag name (open_tag name attrs st)
      else NotWellFormed
  | EndName name =>
      if match name with [] => is_name_start c | _ => is_name_char c end
      then Next (set_mode (EndName (name ++ [c])) st)
      else match name with
           | [] => off_model c
           | _ =>
               if is_space c then Next (set_mode (EndSpace name) st)
               else if N.eqb c 62 then close_tag name st
               else off_model c
           end
  | EndSpace name =>
      if is_space c then Next st
      else if N.eqb c 62 then close_tag name st
      else NotWellFormed
  | TextRef ent =>
      if N.eqb c 59 then
        match resolve_entity ent with
        | Some ch => add_text ch (Content false) st
        | None => if contains 35 ent then NotModelled else NotWellFormed
        end
      else if is_name_char c || N.eqb c 35
      then Next (set_mode (TextRef (ent ++ [c])) st)
      else off_model c
  end.

Inductive parse_end : Type := Complete | ParseError | Unmodelled.

(** Feed the document; at its end the root must have been closed. *)
Fixpoint run_parser (st : parser) (doc : ustr) : parser * parse_end :=
  match doc with
  | [] =>
      (st,
       match p_mode st, p_stack st, p_root_done st with
       | Content _, [], true => Complete
       | _, _, _ => ParseError
       end)
  | c :: rest =>
      match feed st c with
      | Next st' => run_parser st' rest
      | NotWellFormed => (st, ParseError)
      | NotModelled => (st, Unmodelled)
      end
  end.

Fixpoint strip_prefix (pre s : ustr) : option ustr :=
  match pre, s with
  | [], _ => Some s
  | a :: pre', b :: s' => if N.eqb a b then strip_prefix pre' s' else None
  | _ :: _, [] => None
  end.

(** [ET.iterparse(io.StringIO(doc), events=('end',))]: the elements in
    the order of their end tags, up to the first error if there is one
    (the events parsed before an error are delivered before it is
    raised), and how the parse ended. *)
Definition iterparse (doc : ustr) : list element * parse_end :=
  let body := default doc (strip_prefix xml_declaration doc) in
  let '(st, e) := run_parser (mkParser (Content false) [] false []) body in
  (p_events st, e).

(** [elem.get(key)] *)
Fixpoint attrib_get (key : ustr) (attrs : list (ustr * ustr)) : option ustr :=
  match attrs with
  | [] => None
  | (k, v) :: rest => if ustr_eqb k key then Some v else attrib_get key rest
  end.

(* ----------------------------------------------------------------- *)
(** ** The comment codec: parsing (tasks.py, lines 31-59) *)

Definition custom_xml : ustr := u "[custom_xml]".

(** The body of the loop, lines 42-53. *)
Definition parse_event (comments : list comment) (elem : element)
  : list comment :=
  if ustr_eqb (tag elem) (u "d") then
    match attrib_get (u "p") (attrib elem), text elem with
    | Some p_attr, Some txt =>
        match split 44 p_attr with
        | p0 :: p1 :: p2 :: p3 :: _ =>
            comments ++ [dict.mk (Some (p0 ++ [44%N] ++ p1 ++ [44%N] ++ p2
                                           ++ [44%N] ++ p3 ++ [44%N]
                                           ++ custom_xml))
                                 (Some txt)]
        | _ => comments ++ [dict.mk (Some p_attr) (Some txt)]
        end
    | _, _ => comments
    end
  else comments.

(** A [ParseError] ends the loop and the comments parsed so far are
    returned. *)
Definition _parse_xml_content (xml_content : ustr) : list comment :=
  fold_left parse_event (iterparse xml_content).1 [].

(** The (time, mode, size, color) fields and the text of a comment. *)
Definition core_tuple (c : comment) : list ustr * option ustr :=
  (take 4 (split 44 (default default_p_attr (dict.p c))), dict.m c).

(** The comment as the generator emits it: with the default size put in
    when the packed attribute has three core fields. *)
Definition with_default_size (c : comment) : comment :=
  dict.mk (Some (emit_p_attr (default default_p_attr (dict.p c)))) (dict.m c).

(** Feeding a piece of a document; [None] when the parser stops in it. *)
Fixpoint feed_all (st : parser) (doc : ustr) : option parser :=
  match doc with
  | [] => Some st
  | c :: rest =>
      match feed st c with
      | Next st' => feed_all st' rest
      | _ => None
      end
  end.

(** Characters of a text that survives the round trip unchanged: XML
    characters other than the carriage return (which the parser turns
    into a line feed). *)
Definition text_ok (c : N) : Prop := is_xml_char c = true /\ c <> 13%N.

(** Characters of a packed attribute that survives: XML characters other
    than the double quote, [<], [&] and the blanks that attribute-value
    normalisation replaces. *)
Definition attr_ok (c : N) : Prop :=
  is_xml_char c = true /\ c <> 34%N /\ c <> 60%N /\ c <> 38%N /\
  c <> 13%N /\ c <> 10%N /\ c <> 9%N.

(** A comment both of whose keys are present, with a text that is not
    empty, all of whose characters survive. *)
Definition survives (c : comment) : Prop :=
  exists p_attr txt,
    c = dict.mk (Some p_attr) (Some txt) /\
    txt <> [] /\ Forall text_ok txt /\ Forall attr_ok p_attr.

(** The comment the parser makes of an emitted [d] element. *)
Definition reparsed (c : comment) : comment :=
  let p_attr := emit_p_attr (default default_p_attr (dict.p c)) in
  dict.mk
    (Some (match split 44 p_attr with
           | p0 :: p1 :: p2 :: p3 :: _ =>
               p0 ++ [44%N] ++ p1 ++ [44%N] ++ p2 ++ [44%N] ++ p3 ++ [44%N]
                  ++ custom_xml
           | _ => p_attr
           end))
    (dict.m c).

(** The parser between two children of the root [i] of a generated
    document, with the end events [evs] behind it. *)
Definition in_root (evs : list element) : parser :=
  mkParser (Content false)
    [mkOpen (u "i") [] [10%N; 32%N; 32%N] true] false evs.

(** The end events of the header of a generated document. *)
Definition header_events (count : ustr) : list element :=
  [mkElement (u "chatserver") [] (Some (u "danmu"));
   mkElement (u "chatid") [] (Some (u "0"));
   mkElement (u "mission") [] (Some (u "0"));
   mkElement (u "maxlimit") [] (text_of count);
   mkElement (u "source") [] (Some (u "kuyun"))].

(** The end event of an emitted [d] element. *)
Definition d_event (c : comment) : element :=
  mkElement (u "d")
    [(u "p", emit_p_attr (default default_p_attr (dict.p c)))]
    (dict.m c).

(* ----------------------------------------------------------------- *)
(** ** Exceptions, the world and the task monad *)

(** The exception classes the tasks raise or handle.  All of them derive
    from [Exception]; [TaskSuccess] is the completion signal of the task
    manager, raised like the others. *)
Inductive exn : Type :=
| TaskSuccess (message : string)
| ValueError (message : string)
| OperationalError (message : string)
| IntegrityError
| OSError
| NameError (name : string)
| RateLimitExceededError (retry_after_seconds : Q)
| RequestError
| RuntimeError (message : string).

Inductive result (A : Type) : Type :=
| Ok (a : A)
| Raise (e : exn).
Arguments Ok {A} a.
Arguments Raise {A} e.

Inductive TaskStatus : Type := RUNNING | PAUSED.

Module orm_models.

(** The columns of an [Episode] row other than its primary key. *)
Record EpisodeColumns : Type := mkColumns {
  sourceId : Z;
  episodeIndex : Z;
  title : string;
  sourceUrl : option string;
  providerEpisodeId : option string;
  fetchedAt : option Z;
  commentCount : Z;
  danmakuFilePath : option string
}.

(** An [Episode] object: the primary key [id] and the other columns. *)
Record Episode : Type := mkEpisode {
  id : Z;
  columns : EpisodeColumns
}.

End orm_models.

Coercion orm_models.columns : orm_models.Episode >-> orm_models.EpisodeColumns.

Abbreviation Episode := orm_models.Episode.
Abbreviation EpisodeColumns := orm_models.EpisodeColumns.

(** The statements [reorder_episodes_task] sends with [text(...)]:
    [SET FOREIGN_KEY_CHECKS=0;] / [=1;] on MySQL and
    [SET session_replication_role = 'replica';] / ['origin';] on
    PostgreSQL. *)
Inductive statement : Type :=
| SetForeignKeyChecks (on : bool)
| SetSessionReplicationRole (role : string).

(** What a task did, in order; a call site is named by its line in
    tasks.py. *)
Inductive event : Type :=
| EvProgress (percent : Z) (message : string) (status : option TaskStatus)
| EvExecute (line : nat) (stmt : statement)
| EvCommit (line : nat)
| EvRollback
| EvFlush
| EvGet (id : Z)
| EvDelete (id : Z)
| EvAddAll (eps : list Episode)
| EvMkdir (dir : string)
| EvRename (old new : string)
| EvUnlink (path : string)
| EvWrite (path : string)
| EvSleep (seconds : Q)
| EvCheck (provider : string)
| EvIncrement (provider : string)
| EvGetComments (episodeId : string).

Record World : Type := mkWorld {
  clock : nat;                          (* awaited calls made so far *)
  dialect : string;                     (* session.bind.dialect.name *)
  sources : gmap Z Z;                   (* anime_sources: id -> animeId *)
  stored : gmap Z EpisodeColumns;       (* committed episode rows *)
  view : gmap Z EpisodeColumns;         (* rows as the open transaction sees them *)
  pending_delete : list Z;              (* session.deleted, not yet flushed *)
  pending_add : list Episode;           (* session.new, not yet flushed *)
  fk_checks : bool;                     (* referential integrity enforced *)
  files : gmap string ustr;             (* regular files and their text *)
  budget : gmap string nat;             (* rate limiter: calls consumed *)
  journal : list event
}.

(** A task starts on a fresh session: nothing pending, integrity
    enforced, an empty journal. *)
Definition new_session (dialect_name : string) (srcs : gmap Z Z)
    (rows : gmap Z EpisodeColumns) (fs : gmap string ustr)
    (calls : gmap string nat) : World :=
  mkWorld 0 dialect_name srcs rows rows [] [] true fs calls [].

Definition M (A : Type) : Type := World -> result A * World.

Definition ret {A} (a : A) : M A := fun w => (Ok a, w).

Definition raise {A} (e : exn) : M A := fun w => (Raise e, w).

Definition bind {A B} (m : M A) (k : A -> M B) : M B :=
  fun w =>
    match m w with
    | (Ok a, w') => k a w'
    | (Raise e, w') => (Raise e, w')
    end.

Notation "x <- m ;; k" := (bind m (fun x => k))
  (at level 100, m at next level, right associativity).
Notation "m ;; k" := (bind m (fun _ => k))
  (at level 100, right associativity).

(** [try: m  except Exception as e: h e] *)
Definition try_except {A} (m : M A) (h : exn -> M A) : M A :=
  fun w =>
    match m w with
    | (Ok a, w') => (Ok a, w')
    | (Raise e, w') => h e w'
    end.

(** [try: m  finally: f]: the outcome of [m] stands unless [f] raises. *)
Definition try_finally {A} (m : M A) (f : M unit) : M A :=
  fun w =>
    match m w with
    | (r, w') =>
        match f w' with
        | (Ok _, w'') => (r, w'')
        | (Raise e, w'') => (Raise e, w'')
        end
    end.

Definition tick (w : World) : World :=
  mkWorld (S (clock w)) (dialect w) (sources w) (stored w) (view w)
    (pending_delete w) (pending_add w) (fk_checks w) (files w) (budget w)
    (journal w).

Definition record (ev : event) (w : World) : World :=
  mkWorld (clock w) (dialect w) (sources w) (stored w) (view w)
    (pending_delete w) (pending_add w) (fk_checks w) (files w) (budget w)
    (journal w ++ [ev]).

Definition set_fk_checks (b : bool) (w : World) : World :=
  mkWorld (clock w) (dialect w) (sources w) (stored w) (view w)
    (pending_delete w) (pending_add w) b (files w) (budget w) (journal w).

Definition set_session (v : gmap Z EpisodeColumns) (dels : list Z)
    (adds : list Episode) (w : World) : World :=
  mkWorld (clock w) (dialect w) (sources w) (stored w) v dels adds
    (fk_checks w) (files w) (budget w) (journal w).

Definition set_stored (rows : gmap Z EpisodeColumns) (w : World) : World :=
  mkWorld (clock w) (dialect w) (sources w) rows (view w)
    (pending_delete w) (pending_add w) (fk_checks w) (files w) (budget w)
    (journal w).

Definition set_files (fs : gmap string ustr) (w : World) : World :=
  mkWorld (clock w) (dialect w) (sources w) (stored w) (view w)
    (pending_delete w) (pending_add w) (fk_checks w) fs (budget w)
    (journal w).

Definition set_budget (calls : gmap string nat) (w : World) : World :=
  mkWorld (clock w) (dialect w) (sources w) (stored w) (view w)
    (pending_delete w) (pending_add w) (fk_checks w) (files w) calls
    (journal w).

(** INSERT of the pending rows, one by one: a primary key already in the
    table is an [IntegrityError]. *)
Fixpoint insert_rows (adds : list Episode) (v : gmap Z EpisodeColumns)
  : option (gmap Z EpisodeColumns) :=
  match adds with
  | [] => Some v
  | e :: adds' =>
      match v !! orm_models.id e with
      | Some _ => None
      | None => insert_rows adds' (<[orm_models.id e := orm_models.columns e]> v)
      end
  end.

Definition delete_rows (dels : list Z) (v : gmap Z EpisodeColumns)
  : gmap Z EpisodeColumns :=
  foldr delete v dels.

(** The unit of work of a flush: pending INSERTs, then pending DELETEs. *)
Definition flush_pending (w : World) : result unit * World :=
  match insert_rows (pending_add w) (view w) with
  | None => (Raise IntegrityError, w)
  | Some v => (Ok tt, set_session (delete_rows (pending_delete w) v) [] [] w)
  end.

(** [models.ProviderEpisodeInfo], what a scraper tells about an episode. *)
Module models.

Record ProviderEpisodeInfo : Type := mkInfo {
  title : string;
  episodeIndex : Z;
  url : string;
  episodeId : string
}.

End models.

Section Tasks.

(** The fault schedule: [faults n = Some e] makes the awaited call number
    [n] raise [e] instead of taking effect. *)
Variable faults : nat -> option exn.

(** An awaited call of a collaborator: it raises when the schedule says
    so, and takes effect otherwise. *)
Definition await {A} (effect : M A) : M A :=
  fun w =>
    match faults (clock w) with
    | Some e => (Raise e, tick w)
    | None => effect (tick w)
    end.

Definition progress_callback (percent : Z) (message : string)
    (status : option TaskStatus) : M unit :=
  await (fun w => (Ok tt, record (EvProgress percent message status) w)).

Definition asyncio_sleep (seconds : Q) : M unit :=
  await (fun w => (Ok tt, record (EvSleep seconds) w)).

(** [await session.execute(text(...))] of a SET statement: a session
    variable, in force from the statement on. *)
Definition session_execute (line : nat) (stmt : statement) : M unit :=
  await (fun w =>
    let w' := record (EvExecute line stmt) w in
    match stmt with
    | SetForeignKeyChecks on => (Ok tt, set_fk_checks on w')
    | SetSessionReplicationRole role =>
        (Ok tt, set_fk_checks (String.eqb role "origin") w')
    end).

Definition session_flush : M unit :=
  await (fun w =>
    match flush_pending w with
    | (Ok _, w') => (Ok tt, record EvFlush w')
    | (Raise e, w') => (Raise e, w')
    end).

(** [await session.commit()]: flush, then make the transaction's rows the
    committed ones. *)
Definition session_commit (line : nat) : M unit :=
  await (fun w =>
    match flush_pending w with
    | (Ok _, w') => (Ok tt, record (EvCommit line) (set_stored (view w') w'))
    | (Raise e, w') => (Raise e, w')
    end).

(** [await session.rollback()]: the uncommitted work is discarded whether
    or not the call itself reports a fault. *)
Definition session_rollback : M unit :=
  fun w =>
    let w' := record EvRollback (set_session (stored w) [] [] (tick w)) in
    match faults (clock w) with
    | Some e => (Raise e, w')
    | None => (Ok tt, w')
    end.

(** [await session.get(orm_models.Episode, id)] (autoflush on). *)
Definition session_get (episode_id : Z) : M (option Episode) :=
  await (fun w =>
    match flush_pending w with
    | (Ok _, w') =>
        (Ok (orm_models.mkEpisode episode_id <$> view w' !! episode_id),
         record (EvGet episode_id) w')
    | (Raise e, w') => (Raise e, w')
    end).

(** [await session.delete(obj)] *)
Definition session_delete (ep : Episode) : M unit :=
  await (fun w =>
    (Ok tt, record (EvDelete (orm_models.id ep))
              (set_session (view w)
                 (pending_delete w ++ [orm_models.id ep]) (pending_add w) w))).

(** [session.add_all(objs)] (not awaited) *)
Definition session_add_all (eps : list Episode) : M unit :=
  fun w =>
    (Ok tt, record (EvAddAll eps)
              (set_session (view w) (pending_delete w) (pending_add w ++ eps) w)).

(* ----------------------------------------------------------------- *)
(** ** Paths and files *)

(** [DANMAKU_BASE_DIR] is imported from [crud], which is not part of the
    sources at hand: it is a parameter. *)
Variable DANMAKU_BASE_DIR : string.

Fixpoint path_parent_go (s : string) : option string :=
  match s with
  | EmptyString => None
  | String c s' =>
      match path_parent_go s' with
      | Some p => Some (String c p)
      | None => if Ascii.eqb c "/" then Some EmptyString else None
      end
  end.

(** [Path(s).parent] *)
Definition path_parent (s : string) : string :=
  match path_parent_go s with
  | Some EmptyString => "/"
  | Some p => p
  | None => "."
  end.

(** [Path(p).relative_to('/data')]; [None] is [ValueError]. *)
Definition relative_to_data (p : string) : option string :=
  if String.prefix "/data/" p
  then Some (String.substring 6 (String.length p - 6) p)
  else if String.eqb p "/data" then Some "" else None.

(** [base / rel] *)
Definition path_join (base rel : string) : string :=
  if String.eqb rel "" then base else base +:+ "/" +:+ rel.

Definition is_file (path : string) (w : World) : bool :=
  bool_decide (is_Some (files w !! path)).

(** [dir.mkdir(parents=True, exist_ok=True)] *)
Definition path_mkdir (dir : string) : M unit :=
  await (fun w => (Ok tt, record (EvMkdir dir) w)).

(** [old.rename(new)] *)
Definition path_rename (old new : string) : M unit :=
  await (fun w =>
    match files w !! old with
    | Some text =>
        (Ok tt, record (EvRename old new)
                  (set_files (<[new := text]> (delete old (files w))) w))
    | None => (Raise OSError, w)
    end).

(* ----------------------------------------------------------------- *)
(** ** The reorder job (tasks.py, lines 711-809) *)

(** Modelled from the spec: [crud.get_anime_source_info] is not part of
    the sources at hand.  It looks the source up and returns its record,
    of which the job reads ['animeId'], or [None] when there is no such
    source. *)
Definition get_anime_source_info (sourceId : Z) : M (option Z) :=
  await (fun w => (Ok (sources w !! sourceId), w)).

(** [select(AnimeSource.id).where(AnimeSource.animeId == anime_id)
      .order_by(AnimeSource.id)] *)
Definition source_ids_of (srcs : gmap Z Z) (anime_id : Z) : list Z :=
  merge_sort Z.le
    (map fst (filter (fun kv => kv.2 = anime_id) (map_to_list srcs))).

Definition select_source_ids (anime_id : Z) : M (list Z) :=
  await (fun w => (Ok (source_ids_of (sources w) anime_id), w)).

(** [l.index(x)]; [None] is [ValueError]. *)
Fixpoint list_index (x : Z) (l : list Z) : option nat :=
  match l with
  | [] => None
  | y :: l' => if Z.eqb y x then Some O else S <$> list_index x l'
  end.

(** [ORDER BY episodeIndex, id] *)
Definition episode_le (e1 e2 : Episode) : Prop :=
  orm_models.episodeIndex e1 < orm_models.episodeIndex e2 \/
  (orm_models.episodeIndex e1 = orm_models.episodeIndex e2 /\
   orm_models.id e1 <= orm_models.id e2).

#[local] Instance episode_le_dec : RelDecision episode_le.
Proof. intros e1 e2. unfold episode_le. apply _. Defined.

Definition rows_of (tbl : gmap Z EpisodeColumns) : list Episode :=
  map (fun kv => orm_models.mkEpisode kv.1 kv.2) (map_to_list tbl).

(** [select(Episode).where(Episode.sourceId == sourceId)
      .order_by(Episode.episodeIndex, Episode.id)] *)
Definition episodes_of (tbl : gmap Z EpisodeColumns) (sourceId : Z)
  : list Episode :=
  merge_sort episode_le
    (filter (fun e : Episode => orm_models.sourceId e = sourceId) (rows_of tbl)).

Definition select_episodes (sourceId : Z) : M (list Episode) :=
  await (fun w =>
    match flush_pending w with
    | (Ok _, w') => (Ok (episodes_of (view w') sourceId), w')
    | (Raise e, w') => (Raise e, w')
    end).

(** [f"/data/danmaku/{anime_id}/{new_id}.xml"] *)
Definition new_web_path (anime_id nid : Z) : string :=
  "/data/danmaku/" +:+ Py.str anime_id +:+ "/" +:+ Py.str nid +:+ ".xml".

(** Lines 774-779: move the track file of an episode that changes. *)
Definition relocate_file (old_path new_path : string) : M unit :=
  match relative_to_data old_path with
  | None => raise (ValueError "path is not in the subpath of '/data'")
  | Some old_rel =>
      match relative_to_data new_path with
      | None => raise (ValueError "path is not in the subpath of '/data'")
      | Some new_rel =>
          let old_full_path := path_join (path_parent DANMAKU_BASE_DIR) old_rel in
          let new_full_path := path_join (path_parent DANMAKU_BASE_DIR) new_rel in
          fun w =>
            if is_file old_full_path w
               && negb (String.eqb old_full_path new_full_path)
            then (path_mkdir (path_parent new_full_path) ;;
                  path_rename old_full_path new_full_path) w
            else (Ok tt, w)
      end
  end.

(** The row that replaces [old_ep] (line 781). *)
Definition renumbered (old_ep : Episode) (nid new_index : Z)
    (new_danmaku_web_path : option string) : Episode :=
  orm_models.mkEpisode nid
    (orm_models.mkColumns (orm_models.sourceId old_ep) new_index
       (orm_models.title old_ep) (orm_models.sourceUrl old_ep)
       (orm_models.providerEpisodeId old_ep) (orm_models.fetchedAt old_ep)
       (orm_models.commentCount old_ep) new_danmaku_web_path).

(** The loop of lines 766-782 over [enumerate(episodes_to_migrate)];
    [i] is the enumeration index of the head of [eps]. *)
Fixpoint plan_loop (anime_id source_order : Z) (eps : list Episode) (i : Z)
    (old_episodes_to_delete new_episodes_to_add : list Episode)
  : M (list Episode * list Episode) :=
  match eps with
  | [] => ret (old_episodes_to_delete, new_episodes_to_add)
  | old_ep :: eps' =>
      let new_index := i + 1 in
      match new_id anime_id source_order new_index with
      | None => raise (ValueError "invalid literal for int() with base 10")
      | Some nid =>
          if Z.eqb (orm_models.id old_ep) nid
             && Z.eqb (orm_models.episodeIndex old_ep) new_index
          then plan_loop anime_id source_order eps' (i + 1)
                 old_episodes_to_delete new_episodes_to_add
          else
            let new_danmaku_web_path :=
              if Py.truthy (orm_models.danmakuFilePath old_ep)
              then Some (new_web_path anime_id nid) else None in
            (match orm_models.danmakuFilePath old_ep, new_danmaku_web_path with
             | Some old_path, Some new_path => relocate_file old_path new_path
             | _, _ => ret tt
             end) ;;
            plan_loop anime_id source_order eps' (i + 1)
              (old_episodes_to_delete ++ [old_ep])
              (new_episodes_to_add
                 ++ [renumbered old_ep nid new_index new_danmaku_web_path])
      end
  end.

Fixpoint delete_all (old_episodes_to_delete : list Episode) : M unit :=
  match old_episodes_to_delete with
  | [] => ret tt
  | old_ep :: rest => session_delete old_ep ;; delete_all rest
  end.

Definition msg_no_episodes : string := "没有找到分集，无需重整。".
Definition msg_all_correct : string := "所有分集顺序和ID都正确，无需重整。".

(** The inner [try] block, lines 731-795. *)
Definition reorder_transaction (sourceId : Z) : M unit :=
  source_info <- get_anime_source_info sourceId ;;
  match source_info with
  | None =>
      raise (ValueError ("找不到源ID " +:+ Py.str sourceId +:+ " 的信息。"))
  | Some anime_id =>
      all_source_ids <- select_source_ids anime_id ;;
      match list_index sourceId all_source_ids with
      | None =>
          raise (ValueError ("源 ID " +:+ Py.str sourceId +:+ " 未在作品 ID "
                               +:+ Py.str anime_id +:+ " 的源列表中找到。"))
      | Some k =>
          let source_order := Z.of_nat k + 1 in
          episodes_to_migrate <- select_episodes sourceId ;;
          match episodes_to_migrate with
          | [] => raise (TaskSuccess msg_no_episodes)
          | _ =>
              progress_callback 10 "正在计算新的分集编号..." None ;;
              plan <- plan_loop anime_id source_order episodes_to_migrate 0 [] [] ;;
              let '(old_episodes_to_delete, new_episodes_to_add) := plan in
              match old_episodes_to_delete with
              | [] => raise (TaskSuccess msg_all_correct)
              | _ =>
                  progress_callback 30
                    ("准备迁移 "
                       +:+ Py.str (Z.of_nat (length old_episodes_to_delete))
                       +:+ " 个分集...") None ;;
                  delete_all old_episodes_to_delete ;;
                  session_flush ;;
                  session_add_all new_episodes_to_add ;;
                  session_commit 794 ;;
                  raise (TaskSuccess
                           ("重整完成，共迁移了 "
                              +:+ Py.str (Z.of_nat (length new_episodes_to_add))
                              +:+ " 个分集的记录。"))
              end
          end
      end
  end.

(** Lines 802-806, the [finally] block. *)
Definition restore_integrity (is_mysql is_postgres : bool) : M unit :=
  (if is_mysql then session_execute 803 (SetForeignKeyChecks true)
   else if is_postgres
        then session_execute 805 (SetSessionReplicationRole "origin")
        else ret tt) ;;
  session_commit 806.

Definition reorder_episodes_task (sourceId : Z) : M unit :=
  progress_callback 0 "正在获取分集列表..." None ;;
  fun w =>
    let is_mysql := String.eqb (dialect w) "mysql" in
    let is_postgres := String.eqb (dialect w) "postgresql" in
    try_except
      ((if is_mysql then session_execute 723 (SetForeignKeyChecks false)
        else if is_postgres
             then session_execute 725 (SetSessionReplicationRole "replica")
             else ret tt) ;;
       session_commit 728 ;;
       try_finally
         (try_except (reorder_transaction sourceId)
            (fun e => session_rollback ;; raise e))
         (restore_integrity is_mysql is_postgres))
      (fun e => raise e) w.

(* ----------------------------------------------------------------- *)
(** ** Deleting track files and episodes (tasks.py, lines 174-189, 346-375) *)

(** [s.lstrip('/')] *)
Fixpoint lstrip_slash (s : string) : string :=
  match s with
  | EmptyString => EmptyString
  | String c s' => if Ascii.eqb c "/" then lstrip_slash s' else s
  end.

(** [path.unlink()] *)
Definition path_unlink (path : string) : M unit :=
  await (fun w =>
    match files w !! path with
    | Some _ => (Ok tt, record (EvUnlink path) (set_files (delete path (files w)) w))
    | None => (Raise OSError, w)
    end).

(** Every exception is swallowed ([ValueError] and [FileNotFoundError]
    silently, the others after logging). *)
Definition _delete_danmaku_file (danmaku_file_path_str : option string) : M unit :=
  match danmaku_file_path_str with
  | None => ret tt
  | Some s =>
      if String.eqb s "" then ret tt
      else
        let full_path :=
          path_join (path_parent DANMAKU_BASE_DIR) (lstrip_slash s) in
        try_except
          (fun w => if is_file full_path w then path_unlink full_path w
                    else (Ok tt, w))
          (fun _ => ret tt)
  end.

(** [5 + int(((i + 1) / total) * 90) if total > 0 else 95]; the product is
    computed in binary floating point and truncated, which the parameter
    [int_scaled i total k] stands for. *)
Variable int_scaled : Z -> Z -> Z -> Z.


(** The pause between two items, [asyncio.sleep(0.1)]. *)
Definition pacing : Q := 1 # 10.


Definition is_task_success (e : exn) : bool :=
  match e with
  | TaskSuccess _ => true
  | _ => false
  end.


(** [delete_episode_task], lines 263-284. *)
Definition delete_episode_task (episodeId : Z) : M unit :=
  progress_callback 0 "开始删除..." None ;;
  try_except
    (episode_exists <- session_get episodeId ;;
     match episode_exists with
     | None => raise (TaskSuccess "分集未找到，无需删除。")
     | Some ep =>
         _delete_danmaku_file (orm_models.danmakuFilePath ep) ;;
         session_delete ep ;;
         session_commit 276 ;;
         raise (TaskSuccess "删除成功。")
     end)
    (fun e =>
       if is_task_success e then raise e
       else session_rollback ;; raise e).

(* ----------------------------------------------------------------- *)
(** ** Writing a track file (tasks.py, lines 156-172) *)

(** Collaborators of [crud], which is not part of the sources at hand:
    parameters. *)
Variable crud_update_episode_danmaku_info : Z -> string -> Z -> M unit.
Variable crud_create_episode_if_not_exists :
  Z -> Z -> Z -> string -> string -> string -> M Z.

(** [path.write_text(text, encoding='utf-8')] *)
Definition path_write_text (path : string) (content : ustr) : M unit :=
  await (fun w =>
    (Ok tt, record (EvWrite path) (set_files (<[path := content]> (files w)) w))).

Definition _write_danmaku_file_and_update_db (anime_id episode_id : Z)
    (comments : list comment) : M Z :=
  let anime_dir := path_join DANMAKU_BASE_DIR (Py.str anime_id) in
  path_mkdir anime_dir ;;
  let danmaku_file_path := path_join anime_dir (Py.str episode_id +:+ ".xml") in
  let xml_content := _generate_dandan_xml comments in
  path_write_text danmaku_file_path xml_content ;;
  let web_path :=
    "/danmaku/" +:+ Py.str anime_id +:+ "/" +:+ Py.str episode_id +:+ ".xml" in
  crud_update_episode_danmaku_info episode_id web_path
    (Z.of_nat (length comments)) ;;
  ret (Z.of_nat (length comments)).

(* ----------------------------------------------------------------- *)
(** ** The episode loop of the import pipeline (tasks.py, lines 286-344) *)

(** The names bound at the top level of the module [tasks]: the imports
    of lines 1-27, [logger], and the functions it defines. *)
Definition tasks_globals : list string :=
  ["logging"; "Callable"; "List"; "Optional"; "Dict"; "asyncio"; "re";
   "traceback"; "Path"; "shutil"; "io"; "datetime"; "timedelta"; "timezone";
   "ET"; "fuzz"; "delete"; "func"; "select"; "update"; "text";
   "AsyncSession"; "OperationalError"; "xml_escape"; "crud"; "models";
   "orm_models"; "RateLimiter"; "RateLimitExceededError"; "download_image";
   "settings"; "ScraperManager"; "MetadataSourceManager";
   "parse_search_keyword"; "clean_xml_string"; "DANMAKU_BASE_DIR";
   "TaskManager"; "TaskSuccess"; "TaskStatus"; "logger";
   "_parse_xml_content"; "_generate_episode_range_string";
   "_generate_dandan_xml"; "_convert_text_danmaku_to_xml";
   "_write_danmaku_file_and_update_db"; "_delete_danmaku_file";
   "delete_anime_task"; "delete_source_task"; "delete_episode_task";
   "_process_episode_list"; "delete_bulk_episodes_task";
   "generic_import_task"; "edited_import_task"; "full_refresh_task";
   "delete_bulk_sources_task"; "refresh_episode_task";
   "reorder_episodes_task"; "incremental_refresh_task";
   "manual_import_task"; "batch_manual_import_task";
   "auto_search_and_import_task"; "database_maintenance_task"].

(** Evaluating a global name: an unbound one raises [NameError]. *)
Definition global_name (name : string) : M unit :=
  if bool_decide (name ∈ tasks_globals) then ret tt
  else raise (NameError name).

(** Modelled from the spec: [RateLimiter] is not part of the sources at
    hand.  [check] returns or raises the rate-limit condition (with the
    time to wait), as the schedule says; [increment] records one consumed
    call of the provider. *)
Definition rate_limiter_check (provider : string) : M unit :=
  await (fun w => (Ok tt, record (EvCheck provider) w)).

Definition rate_limiter_increment (provider : string) : M unit :=
  await (fun w =>
    (Ok tt, record (EvIncrement provider)
              (set_budget (<[provider := S (default O (budget w !! provider))]>
                             (budget w)) w))).

(** What the scraper returns when asked at a given call. *)
Variable fetched : nat -> string -> list comment.

(** [await scraper.get_comments(episodeId, progress_callback=...)] *)
Definition scraper_get_comments (episodeId : string) : M (list comment) :=
  fun w =>
    await (fun w' => (Ok (fetched (clock w) episodeId),
                      record (EvGetComments episodeId) w')) w.

(** [f"{x:.0f}"] of a float: a parameter. *)
Variable format_0f : Q -> string.

(** [10 + int((i / total_episodes) * 85 if total_episodes > 0 else 85)] *)
Definition base_progress (i total_episodes : nat) : Z :=
  10 + (if (0 <? total_episodes)%nat
        then int_scaled (Z.of_nat i) (Z.of_nat total_episodes) 85
        else 85).

Record loop_state : Type := mkLoop {
  loop_i : nat;
  total_comments_added : Z;
  failed_episodes_count : Z
}.

(** How the [try] statement of lines 312-333 leaves the episode. *)
Inductive attempt : Type :=
| Fetched (comments : list comment)
| Skipped
| Retry.

Definition msg_processing (ep : models.ProviderEpisodeInfo) (i total : nat)
  : string :=
  "正在处理: " +:+ models.title ep +:+ " (" +:+ Py.str (Z.of_nat i + 1)
    +:+ "/" +:+ Py.str (Z.of_nat total) +:+ ")".

Definition msg_rate_limited (retry_after_seconds : Q) : string :=
  "速率受限，将在 " +:+ format_0f retry_after_seconds +:+ " 秒后自动重试...".

Definition msg_network_skipped (ep : models.ProviderEpisodeInfo) : string :=
  "处理: " +:+ models.title ep +:+ " - 网络错误，已跳过".

Definition msg_unknown_skipped (ep : models.ProviderEpisodeInfo) : string :=
  "处理: " +:+ models.title ep +:+ " - 未知错误，已跳过".

(** The [except] clauses, tried in order; the expression of a clause is
    evaluated when the clause is reached. *)
Definition fetch_handler (ep : models.ProviderEpisodeInfo) (progress : Z)
    (e : exn) : M attempt :=
  match e with
  | RateLimitExceededError retry_after_seconds =>
      progress_callback progress (msg_rate_limited retry_after_seconds)
        (Some PAUSED) ;;
      asyncio_sleep retry_after_seconds ;;
      ret Retry
  | _ =>
      global_name "httpx" ;;
      match e with
      | RequestError =>
          progress_callback progress (msg_network_skipped ep) (Some RUNNING) ;;
          ret Skipped
      | _ =>
          progress_callback progress (msg_unknown_skipped ep) (Some RUNNING) ;;
          ret Skipped
      end
  end.

(** One pass through the body of the [while] loop. *)
Definition process_episode (episodes : list models.ProviderEpisodeInfo)
    (provider_name : string) (anime_id source_id : Z) (st : loop_state)
  : M loop_state :=
  match episodes !! loop_i st with
  | None => ret st
  | Some episode =>
      let total_episodes := length episodes in
      let progress := base_progress (loop_i st) total_episodes in
      progress_callback progress
        (msg_processing episode (loop_i st) total_episodes) None ;;
      outcome <-
        try_except
          (rate_limiter_check provider_name ;;
           comments <- scraper_get_comments (models.episodeId episode) ;;
           ret (Fetched comments))
          (fetch_handler episode progress) ;;
      match outcome with
      | Retry => ret st
      | Skipped =>
          ret (mkLoop (S (loop_i st)) (total_comments_added st)
                 (failed_episodes_count st + 1))
      | Fetched [] =>
          ret (mkLoop (S (loop_i st)) (total_comments_added st)
                 (failed_episodes_count st))
      | Fetched comments =>
          rate_limiter_increment provider_name ;;
          episode_db_id <-
            crud_create_episode_if_not_exists anime_id source_id
              (models.episodeIndex episode) (models.title episode)
              (models.url episode) (models.episodeId episode) ;;
          added_count <-
            _write_danmaku_file_and_update_db anime_id episode_db_id comments ;;
          session_commit 341 ;;
          ret (mkLoop (S (loop_i st)) (total_comments_added st + added_count)
                 (failed_episodes_count st))
      end
  end.

(** The [while i < total_episodes] loop, run for at most [fuel] passes;
    [None] when the passes do not suffice (a rate limit that never
    lifts keeps the loop on the same episode for ever). *)
Fixpoint process_loop (fuel : nat) (episodes : list models.ProviderEpisodeInfo)
    (provider_name : string) (anime_id source_id : Z) (st : loop_state)
  : M (option (Z * Z)) :=
  if (loop_i st <? length episodes)%nat then
    match fuel with
    | O => ret None
    | S fuel' =>
        st' <- process_episode episodes provider_name anime_id source_id st ;;
        process_loop fuel' episodes provider_name anime_id source_id st'
    end
  else ret (Some (total_comments_added st, failed_episodes_count st)).

Definition _process_episode_list (fuel : nat)
    (episodes : list models.ProviderEpisodeInfo) (provider_name : string)
    (anime_id source_id : Z) : M (option (Z * Z)) :=
  process_loop fuel episodes provider_name anime_id source_id (mkLoop 0 0 0).

End Tasks.

(* ----------------------------------------------------------------- *)
(** ** Specifications of tasks *)

(** [hoare P m Q E]: run from a world in [P], the task [m] ends either
    with a value and a world in [Q] or with an exception and a world in
    [E]. *)
Definition hoare {A} (P : World -> Prop) (m : M A)
    (Q : A -> World -> Prop) (E : exn -> World -> Prop) : Prop :=
  forall w, P w ->
    match m w with
    | (Ok a, w') => Q a w'
    | (Raise e, w') => E e w'
    end.

(** [m] keeps [P], however it ends. *)
Definition keeps {A} (P : World -> Prop) (m : M A) : Prop :=
  hoare P m (fun _ => P) (fun _ => P).

(** Events of calls that leave the session and its variables alone. *)
Definition quiet (ev : event) : bool :=
  match ev with
  | EvProgress _ _ _ | EvMkdir _ | EvRename _ _
  | EvUnlink _ | EvWrite _ | EvSleep _ | EvCheck _ | EvIncrement _
  | EvGetComments _ => true
  | _ => false
  end.

(** A property of worlds that reads neither the clock, the session
    variable, the files nor the rate budget, and that holds on when the
    journal grows by a quiet event. *)
Definition tolerant (P : World -> Prop) : Prop :=
  (forall w, P w -> P (tick w)) /\
  (forall w ev, quiet ev = true -> P w -> P (record ev w)) /\
  (forall w b, P w -> P (set_fk_checks b w)) /\
  (forall w fs, P w -> P (set_files fs w)) /\
  (forall w calls, P w -> P (set_budget calls w)).

(** The session holds no uncommitted work and its rows are [rows]. *)
Definition session_clean (rows : gmap Z EpisodeColumns) (w : World) : Prop :=
  stored w = rows /\ view w = rows /\
  pending_delete w = [] /\ pending_add w = [].



(** 1-based rank of a source among the sources of its work, by id: one
    more than the number of the work's sources with a smaller id. *)
Definition source_rank (srcs : gmap Z Z) (anime_id sourceId : Z) : Z :=
  Z.of_nat (length (filter (fun kv => kv.2 = anime_id /\ kv.1 < sourceId)
                           (map_to_list srcs))) + 1.

(** Events that change episode rows or track files. *)
Definition is_migration_event (ev : event) : bool :=
  match ev with
  | EvDelete _ | EvAddAll _ | EvFlush | EvRename _ _ | EvMkdir _ => true
  | EvCommit line => Nat.eqb line 794
  | _ => false
  end.

(** What the job stages for a source, against the catalog it started
    from: every staged row sits at some position [j] (0-based) of the
    source's episodes in the order of (index, id), carries the identity
    encoded from the work id, the source's rank and [j + 1], the index
    [j + 1] and the other columns of the episode it replaces (the path
    apart); and every episode of the source either has that identity and
    index already or is replaced by a staged row that has them. *)
Definition staged_ok (srcs : gmap Z Z) (rows : gmap Z EpisodeColumns)
    (sourceId : Z) (news : list Episode) : Prop :=
  exists anime_id,
    srcs !! sourceId = Some anime_id /\
    let source_order := source_rank srcs anime_id sourceId in
    let eps := episodes_of rows sourceId in
    (forall ne : Episode, ne ∈ news ->
       exists (j : nat) (old : Episode), eps !! j = Some old /\
         new_id anime_id source_order (Z.of_nat j + 1) = Some (orm_models.id ne) /\
         orm_models.episodeIndex ne = Z.of_nat j + 1 /\
         orm_models.sourceId ne = orm_models.sourceId old /\
         orm_models.title ne = orm_models.title old /\
         orm_models.sourceUrl ne = orm_models.sourceUrl old /\
         orm_models.providerEpisodeId ne = orm_models.providerEpisodeId old /\
         orm_models.fetchedAt ne = orm_models.fetchedAt old /\
         orm_models.commentCount ne = orm_models.commentCount old) /\
    (forall (j : nat) (old : Episode), eps !! j = Some old ->
       exists nid,
         new_id anime_id source_order (Z.of_nat j + 1) = Some nid /\
         ((orm_models.id old = nid /\
           orm_models.episodeIndex old = Z.of_nat j + 1) \/
          (exists ne : Episode, ne ∈ news /\ orm_models.id ne = nid /\
                      orm_models.episodeIndex ne = Z.of_nat j + 1))).

(** Every insertion the journal records is as [staged_ok] says. *)
Definition staging_ok (srcs : gmap Z Z) (rows : gmap Z EpisodeColumns)
    (sourceId : Z) (w : World) : Prop :=
  forall news, EvAddAll news ∈ journal w -> staged_ok srcs rows sourceId news.

(** The state of the job before it stages anything. *)
Definition planning (srcs : gmap Z Z) (rows : gmap Z EpisodeColumns)
    (sourceId : Z) (w : World) : Prop :=
  sources w = srcs /\ view w = rows /\
  pending_delete w = [] /\ pending_add w = [] /\
  staging_ok srcs rows sourceId w.

(** [m] adds to the journal only events in [S]. *)
Definition emits {A} (S : event -> Prop) (m : M A) : Prop :=
  forall w, exists evs, journal (m w).2 = journal w ++ evs /\ Forall S evs.

(** The statement of the [finally] block that switches integrity
    checking back on. *)
Definition is_restore (ev : event) : Prop :=
  exists stmt, ev = EvExecute 803 stmt \/ ev = EvExecute 805 stmt.

(** No restoring statement in the journal. *)
Definition not_restored (w : World) : Prop :=
  Forall (fun ev => ~ is_restore ev) (journal w).

(** If the journal holds the restoring statement, checking is on. *)
Definition restored (w : World) : Prop :=
  Exists is_restore (journal w) -> fk_checks w = true.

(** The episode ids a journal looked up, in order. *)
Definition lookups (j : list event) : list Z :=
  omap (fun ev => match ev with EvGet id => Some id | _ => None end) j.

(** No pause but the pacing between two items. *)
Definition calm (ev : event) : Prop :=
  match ev with
  | EvSleep d => d = pacing
  | _ => True
  end.

(** [w'] comes after [w] with the same committed rows and a journal
    grown by events without lookup and without pause. *)
Definition idle_step (w w' : World) : Prop :=
  stored w' = stored w /\ view w' = view w /\
  pending_delete w' = pending_delete w /\ pending_add w' = pending_add w /\
  exists evs, journal w' = journal w ++ evs /\ lookups evs = [] /\
              Forall calm evs.

(** One run lies before another: both are well formed and at least one
    index is missing between them. *)
Definition run_before (r1 r2 : Z * Z) : Prop :=
  r1.1 <= r1.2 /\ r1.2 + 1 < r2.1 /\ r2.1 <= r2.2.

(** The code point of a decimal digit. *)
Definition digit_code (c : N) : Prop := (48 <= c <= 57)%N.


(* ----------------------------------------------------------------- *)
(** ** A small catalog, used to exercise the statements *)

Definition no_faults : nat -> option exn := fun _ => None.

(** The awaited call number [n] raises [e]; no other call does. *)
Definition fault_at (n : nat) (e : exn) : nat -> option exn :=
  fun k => if Nat.eqb k n then Some e else None.

Definition lock_timeout : exn :=
  OperationalError "(1205, 'Lock wait timeout exceeded; try restarting transaction')".

Definition sample_row (sourceId episodeIndex : Z) (path : option string)
  : EpisodeColumns :=
  orm_models.mkColumns sourceId episodeIndex "ep" None (Some "x") None 0 path.

(** Work 1 has sources 1 and 2, work 9 has source 3. *)
Definition sample_sources : gmap Z Z :=
  list_to_map [(1, 1); (2, 1); (3, 9)].

(** Source 1 is in order; source 2 has two episodes with drifted
    identities, one of them with a track file. *)
Definition sample_rows : gmap Z EpisodeColumns :=
  list_to_map
    [(25000001010001, sample_row 1 1 None);
     (5, sample_row 2 1 None);
     (6, sample_row 2 3 (Some "/data/danmaku/1/6.xml"))].

Definition sample_files : gmap string ustr :=
  list_to_map [("/app/config/danmaku/1/6.xml", [60%N; 105%N; 47%N; 62%N])].

Definition sample_base : string := "/app/config/danmaku".

(** The rows the job stages for source 2 of the sample catalog. *)
Definition sample_news : list Episode :=
  [orm_models.mkEpisode 25000001020001
     (orm_models.mkColumns 2 1 "ep" None (Some "x") None 0 None);
   orm_models.mkEpisode 25000001020002
     (orm_models.mkColumns 2 2 "ep" None (Some "x") None 0
        (Some "/data/danmaku/1/25000001020002.xml"))].

(** A comment with an empty text, and one with a text. *)
Definition empty_comment : comment :=
  dict.mk (Some (u "1.5,1,25,16777215")) (Some []).

Definition plain_comment : comment :=
  dict.mk (Some (u "2.0,4,255,[bili]x")) (Some (u "a < b & c")).

(** Two episodes a scraper lists, and stand-ins for the collaborators of
    the import pipeline. *)
Definition sample_episodes : list models.ProviderEpisodeInfo :=
  [models.mkInfo "one" 1 "http://v/1" "p1";
   models.mkInfo "two" 2 "http://v/2" "p2"].

Definition sample_int_scaled (i total k : Z) : Z := i * k / total.

Definition sample_format_0f (x : Q) : string :=
  Py.str (Qnum x / Z.pos (Qden x)).

Definition sample_fetched (call : nat) (episodeId : string) : list comment :=
  [plain_comment].

Definition sample_update (episode_id : Z) (web_path : string) (count : Z)
  : M unit := ret tt.

Definition sample_create (anime_id source_id episode_index : Z)
    (title url provider_episode_id : string) : M Z :=
  ret (100 + episode_index).

Definition rate_limited : exn := RateLimitExceededError (30 # 1).

(* ================================================================= *)
(** * Part II: proofs *)
(* ================================================================= *)

(* ----------------------------------------------------------------- *)
(** ** Digit strings *)

#[local] Arguments String.append !_ _ / : simpl nomatch.

Lemma string_app_assoc (a b c : string) : (a +:+ b) +:+ c = a +:+ (b +:+ c).
Proof. induction a as [|x a IH]; simpl; [done | by rewrite IH]. Qed.

Lemma string_app_nil_r (a : string) : a +:+ "" = a.
Proof. induction a as [|x a IH]; simpl; [done | by rewrite IH]. Qed.

Lemma string_length_app (a b : string) :
  String.length (a +:+ b) = (String.length a + String.length b)%nat.
Proof. induction a as [|x a IH]; simpl; [done | by rewrite IH]. Qed.

Lemma zeros_snoc (k : nat) : Py.zeros k +:+ "0" = String "0" (Py.zeros k).
Proof. induction k as [|k IH]; simpl; [done | by rewrite IH]. Qed.

Lemma zeros_length (k : nat) : String.length (Py.zeros k) = k.
Proof. induction k as [|k IH]; simpl; [done | by rewrite IH]. Qed.

Lemma digit_char_spec (d : Z) :
  0 <= d < 10 ->
  Py.is_digit (Py.digit_char d) = true /\ Py.digit_val (Py.digit_char d) = d.
Proof.
  intros Hd. unfold Py.is_digit, Py.digit_val, Py.digit_char.
  rewrite nat_ascii_embedding by lia. split.
  - apply andb_true_iff; split; apply Nat.leb_le; lia.
  - lia.
Qed.

Lemma int_digits_app (s1 s2 : string) (acc : Z) :
  Py.int_digits (s1 +:+ s2) acc =
  match Py.int_digits s1 acc with
  | Some v => Py.int_digits s2 v
  | None => None
  end.
Proof.
  revert acc; induction s1 as [|c s1 IH]; intros acc; simpl; [done|].
  destruct (Py.is_digit c); [apply IH | done].
Qed.

Lemma int_digits_nondigit (s1 s2 : string) (c : ascii) (acc : Z) :
  Py.is_digit c = false -> Py.int_digits (s1 +:+ String c s2) acc = None.
Proof.
  intros Hc; revert acc; induction s1 as [|x s1 IH]; intros acc; simpl.
  - by rewrite Hc.
  - destruct (Py.is_digit x); [apply IH | done].
Qed.

Lemma int_digits_fixed (w : nat) (n acc : Z) :
  0 <= n < 10 ^ Z.of_nat w ->
  Py.int_digits (Py.fixed w n) acc = Some (acc * 10 ^ Z.of_nat w + n).
Proof.
  revert n acc; induction w as [|w IH]; intros n acc Hn.
  - simpl in *. f_equal. lia.
  - rewrite Nat2Z.inj_succ, Z.pow_succ_r in Hn by lia.
    simpl Py.fixed. rewrite int_digits_app, IH.
    + destruct (digit_char_spec (n mod 10)) as [Hd Hv];
        [apply Z.mod_pos_bound; lia|].
      cbn [Py.int_digits]. rewrite Hd, Hv. f_equal.
      rewrite Nat2Z.inj_succ, Z.pow_succ_r by lia.
      pose proof (Z.div_mod n 10). lia.
    + split; [apply Z.div_pos; lia | apply Z.div_lt_upper_bound; lia].
Qed.

Lemma digits_go_acc (f : nat) (n : Z) (acc : string) :
  Py.digits_go f n acc = Py.digits_go f n "" +:+ acc.
Proof.
  revert n acc; induction f as [|f IH]; intros n acc; simpl; [done|].
  destruct (Z.ltb n 10); [done|].
  rewrite (IH _ (String _ acc)), (IH _ (String _ "")).
  by rewrite string_app_assoc.
Qed.

Lemma fixed_zero (w : nat) : Py.fixed w 0 = Py.zeros w.
Proof.
  induction w as [|w IH]; [done|]. cbn [Py.fixed].
  change (0 / 10) with 0. change (Py.digit_char (0 mod 10)) with "0"%char.
  rewrite IH. apply zeros_snoc.
Qed.

Lemma fixed_small (w : nat) (n : Z) :
  0 <= n < 10 ->
  Py.fixed (S w) n = Py.zeros w +:+ String (Py.digit_char n) "".
Proof.
  intros Hn. cbn [Py.fixed].
  rewrite Z.div_small, Z.mod_small by lia. by rewrite fixed_zero.
Qed.

Lemma zfill_digits_fixed (w f : nat) (n : Z) :
  0 <= n < 10 ^ Z.of_nat (S w) -> n < 10 ^ Z.of_nat (S f) ->
  Py.zfill (S w) (Py.digits_go f n "") = Py.fixed (S w) n.
Proof.
  revert f n; induction w as [|w IH]; intros f n Hn Hf.
  - assert (n < 10) by (change (10 ^ Z.of_nat 1) with 10 in Hn; lia).
    rewrite fixed_small by lia.
    assert (Py.digits_go f n "" = String (Py.digit_char n) "") as ->.
    { destruct f; simpl; rewrite ?Z.mod_small by lia; [done|].
      by destruct (Z.ltb_spec n 10); [|lia]. }
    done.
  - destruct (Z.ltb_spec n 10) as [Hlt|Hge].
    + rewrite fixed_small by lia.
      assert (Py.digits_go f n "" = String (Py.digit_char n) "") as ->.
      { destruct f; simpl; rewrite ?Z.mod_small by lia; [done|].
        by destruct (Z.ltb_spec n 10); [|lia]. }
      done.
    + destruct f as [|f]; [change (10 ^ Z.of_nat 1) with 10 in Hf; lia|].
      simpl Py.digits_go. destruct (Z.ltb_spec n 10); [lia|].
      rewrite digits_go_acc.
      change (Py.fixed (S (S w)) n)
        with (Py.fixed (S w) (n / 10) +:+ String (Py.digit_char (n mod 10)) "").
      rewrite <- (IH f (n / 10)).
      * unfold Py.zfill. rewrite string_length_app, string_app_assoc. simpl.
        do 2 f_equal. lia.
      * rewrite (Nat2Z.inj_succ (S w)), Z.pow_succ_r in Hn by lia.
        split; [apply Z.div_pos; lia | apply Z.div_lt_upper_bound; lia].
      * rewrite (Nat2Z.inj_succ (S f)), Z.pow_succ_r in Hf by lia.
        apply Z.div_lt_upper_bound; lia.
Qed.

Lemma str_nat_fuel (n : Z) :
  0 <= n -> n < 10 ^ Z.of_nat (S (Z.to_nat (Z.log2 n))).
Proof.
  intros Hn. rewrite Nat2Z.inj_succ, Z2Nat.id by apply Z.log2_nonneg.
  destruct (Z.eq_dec n 0) as [->|Hne].
  - simpl. lia.
  - pose proof (Z.log2_spec n ltac:(lia)) as [_ Hup].
    eapply Z.lt_le_trans; [exact Hup|].
    apply Z.pow_le_mono_l. lia.
Qed.

(** On a value that fits, the format is the fixed-width numeral. *)
Lemma format_0d_fixed (w : nat) (n : Z) :
  0 <= n < 10 ^ Z.of_nat (S w) -> Py.format_0d (S w) n = Py.fixed (S w) n.
Proof.
  intros Hn. unfold Py.format_0d.
  destruct (Z.ltb_spec n 0); [lia|].
  unfold Py.str_nat. apply zfill_digits_fixed; [done|].
  apply str_nat_fuel; lia.
Qed.

Lemma format_0d_neg (w : nat) (n : Z) :
  n < 0 -> exists s, Py.format_0d w n = String "-" s.
Proof.
  intros Hn. unfold Py.format_0d.
  destruct (Z.ltb_spec n 0); [|lia]. simpl. eauto.
Qed.

(* ----------------------------------------------------------------- *)
(** ** Episode identity *)

Ltac pow_consts :=
  change (10 ^ Z.of_nat 6) with 1000000 in *;
  change (10 ^ Z.of_nat 2) with 100 in *;
  change (10 ^ Z.of_nat 4) with 10000 in *.

(** Closed form of the identity on the documented domain. *)
Lemma new_id_closed_form (a o i : Z) :
  0 <= a < 1000000 -> 0 <= o < 100 -> 0 <= i < 10000 ->
  new_id a o i = Some (25000000000000 + a * 1000000 + o * 10000 + i).
Proof.
  intros Ha Ho Hi. unfold new_id.
  change (Z.of_nat 6) with 6 in *. change (Z.of_nat 2) with 2 in *.
  change (Z.of_nat 4) with 4 in *.
  rewrite (format_0d_fixed 5), (format_0d_fixed 1), (format_0d_fixed 3)
    by (pow_consts; lia).
  change (Py.int ("25" +:+ ?s)) with (Py.int_digits s 25).
  rewrite int_digits_app, int_digits_fixed by (pow_consts; lia).
  rewrite int_digits_app, int_digits_fixed by (pow_consts; lia).
  rewrite int_digits_fixed by (pow_consts; lia).
  apply (f_equal Some). pow_consts. lia.
Qed.

(** A negative field puts a minus sign inside the numeral: [int] raises. *)
Lemma new_id_negative (a o i : Z) :
  a < 0 \/ o < 0 \/ i < 0 -> new_id a o i = None.
Proof.
  intros H. unfold new_id.
  change (Py.int ("25" +:+ ?s)) with (Py.int_digits s 25).
  destruct (Z.lt_ge_cases a 0) as [Ha|Ha].
  { destruct (format_0d_neg 6 a Ha) as [s ->]. done. }
  destruct (Z.lt_ge_cases o 0) as [Ho|Ho].
  { destruct (format_0d_neg 2 o Ho) as [s ->].
    change (String "-" s +:+ ?t) with (String "-" (s +:+ t)).
    by apply int_digits_nondigit. }
  assert (i < 0) as Hi by lia.
  destruct (format_0d_neg 4 i Hi) as [s ->].
  rewrite <- string_app_assoc.
  by apply int_digits_nondigit.
Qed.

(** C10. On the documented domain (work id below 1000000, source order
    below 100, episode index below 10000) the identity encoding is
    injective: two distinct triples never yield the same identity.  A
    negative field yields no identity at all ([int] raises), so only the
    upper bounds are needed. *)
Theorem new_id_injective (a o i a' o' i' v v' : Z) :
  a < 1000000 -> o < 100 -> i < 10000 ->
  a' < 1000000 -> o' < 100 -> i' < 10000 ->
  (a, o, i) <> (a', o', i') ->
  new_id a o i = Some v -> new_id a' o' i' = Some v' -> v <> v'.
Proof.
  intros Ha Ho Hi Ha' Ho' Hi' Hne Hv Hv' ->.
  destruct (Z.lt_ge_cases a 0); [rewrite new_id_negative in Hv by lia; done|].
  destruct (Z.lt_ge_cases o 0); [rewrite new_id_negative in Hv by lia; done|].
  destruct (Z.lt_ge_cases i 0); [rewrite new_id_negative in Hv by lia; done|].
  destruct (Z.lt_ge_cases a' 0); [rewrite new_id_negative in Hv' by lia; done|].
  destruct (Z.lt_ge_cases o' 0); [rewrite new_id_negative in Hv' by lia; done|].
  destruct (Z.lt_ge_cases i' 0); [rewrite new_id_negative in Hv' by lia; done|].
  rewrite new_id_closed_form in Hv, Hv' by lia.
  apply Hne.
  assert (a = a' /\ o = o' /\ i = i') as (-> & -> & ->) by (simplify_eq; lia).
  done.
Qed.

Lemma new_id_injective_witness :
  new_id 7 1 12 = Some 25000007010012 /\ new_id 7 2 12 = Some 25000007020012 /\
  25000007010012 <> 25000007020012.
Proof.
  split; [vm_compute; reflexivity|]. split; [vm_compute; reflexivity|].
  apply (new_id_injective 7 1 12 7 2 12); try lia.
  - intros [=].
  - vm_compute; reflexivity.
  - vm_compute; reflexivity.
Defined.

(** Outside the domain the slots run into each other. *)
Lemma new_id_collision_outside_domain :
  new_id 1234567 1 1 = new_id 123456 701 1.
Proof. vm_compute; reflexivity. Qed.

(* ----------------------------------------------------------------- *)
(** ** Range compression *)

Lemma range_loop_runs (rest : list Z) (s e : Z) (acc : list string) :
  range_loop rest s e acc
  = acc ++ map (fun r => range_token r.1 r.2) (runs_loop rest s e).
Proof.
  revert s e acc; induction rest as [|x rest IH]; intros s e acc; simpl.
  - done.
  - destruct (Z.eqb x (e + 1)); rewrite IH; [done|].
    by rewrite <- app_assoc.
Qed.

#[local] Instance run_before_trans : Transitive run_before.
Proof. intros [a b] [c d] [e f]; unfold run_before; simpl; lia. Qed.

Lemma runs_loop_spec (rest : list Z) (s e : Z) :
  s <= e -> Sorted Z.lt (e :: rest) ->
  (exists b tl, runs_loop rest s e = (s, b) :: tl) /\
  Forall (fun r => r.1 <= r.2) (runs_loop rest s e) /\
  Sorted run_before (runs_loop rest s e) /\
  (forall x, (exists r, r ∈ runs_loop rest s e /\ covers r x)
             <-> (s <= x <= e \/ x ∈ rest)).
Proof.
  revert s e; induction rest as [|y rest IH]; intros s e Hse Hsorted.
  - simpl. split; [eauto|]. split; [by repeat constructor|].
    split; [by repeat constructor|].
    intros x; split.
    + intros (r & Hr & Hc). apply list_elem_of_singleton in Hr as ->.
      left; exact Hc.
    + intros [Hx|Hx]; [|by apply elem_of_nil in Hx].
      exists (s, e). split; [apply list_elem_of_singleton; done | exact Hx].
  - apply Sorted_inv in Hsorted as [Hs' Hhd].
    apply HdRel_inv in Hhd.
    simpl. destruct (Z.eqb_spec y (e + 1)) as [->|Hne].
    + destruct (IH s (e + 1) ltac:(lia) Hs') as (Hd & Hwf & Hsep & Hcov).
      split; [done|]. split; [done|]. split; [done|].
      intros x. rewrite Hcov, elem_of_cons. intuition lia.
    + destruct (IH y y ltac:(lia) Hs') as ((b & tl & Heq) & Hwf & Hsep & Hcov).
      split; [eauto|]. split; [by constructor|]. split.
      * constructor; [done|]. rewrite Heq. constructor.
        rewrite Heq in Hwf. apply Forall_cons in Hwf as [Hb _].
        unfold run_before; simpl in *. lia.
      * intros x. rewrite elem_of_cons. split.
        -- intros (r & Hr & Hc). apply elem_of_cons in Hr as [->|Hr].
           ++ left; exact Hc.
           ++ right.
              assert (y <= x <= y \/ x ∈ rest) as [?|?] by (apply Hcov; eauto);
                [left; lia | by right].
        -- intros [Hx|[Hxy|Hx]].
           ++ exists (s, e). split; [by left | exact Hx].
           ++ assert (y <= x <= y) as Hy by lia.
              destruct (proj2 (Hcov x) (or_introl Hy)) as (r & ? & ?).
              exists r. split; [by right | done].
           ++ destruct (proj2 (Hcov x) (or_intror Hx)) as (r & ? & ?).
              exists r. split; [by right | done].
Qed.

Lemma sorted_set_elem_of (xs : list Z) (x : Z) : x ∈ sorted_set xs <-> x ∈ xs.
Proof.
  unfold sorted_set. rewrite merge_sort_Permutation. apply elem_of_remove_dups.
Qed.

Lemma strictly_sorted (l : list Z) :
  StronglySorted Z.le l -> NoDup l -> Sorted Z.lt l.
Proof.
  induction 1 as [|x l Hl IH Hx]; intros Hnd; [constructor|].
  apply NoDup_cons in Hnd as [Hnotin Hnd].
  constructor; [by apply IH|].
  destruct l as [|y l]; constructor.
  apply Forall_cons in Hx as [Hxy _].
  assert (x <> y) by (intros ->; apply Hnotin; left).
  lia.
Qed.

Lemma sorted_set_sorted (xs : list Z) : Sorted Z.lt (sorted_set xs).
Proof.
  apply strictly_sorted.
  - apply (StronglySorted_merge_sort Z.le).
  - unfold sorted_set. rewrite merge_sort_Permutation. apply NoDup_remove_dups.
Qed.

Lemma run_before_disjoint (runs : list (Z * Z)) (r1 r2 : Z * Z) (x : Z) :
  Sorted run_before runs ->
  r1 ∈ runs -> r2 ∈ runs -> covers r1 x -> covers r2 x -> r1 = r2.
Proof.
  intros Hs. apply Sorted_StronglySorted in Hs; [|apply _].
  induction Hs as [|r runs Hs IH Hr]; intros H1 H2 Hc1 Hc2.
  - by apply elem_of_nil in H1.
  - rewrite Forall_forall in Hr.
    apply elem_of_cons in H1 as [->|H1], H2 as [->|H2]; [done| | |by apply IH].
    + specialize (Hr _ H2). unfold run_before, covers in *. lia.
    + specialize (Hr _ H1). unfold run_before, covers in *. lia.
Qed.

(** C8 (amended).  Range compression of any list of episode indices yields
    the comma-joined renderings of a list of runs that is ascending with
    at least one missing index between neighbours (so every run is
    maximal), each run of one index rendered as that number and each
    longer run as "a-b"; the runs consist of input indices only and every
    input index lies in exactly one run.  [1,2,3,5,8,9,10] gives
    "1-3, 5, 8-10"; the empty list gives the literal "无". *)
Theorem range_compression_spec (episode_indices : list Z) :
  (exists (runs : list (Z * Z)) (tokens : list string),
    _generate_episode_range_string episode_indices
      = (if decide (episode_indices = []) then "无"
         else String.concat ", " tokens)
    /\ Forall2 (fun r t => (r.1 = r.2 -> t = Py.str r.1) /\
                           (r.1 < r.2 -> t = Py.str r.1 +:+ "-" +:+ Py.str r.2))
               runs tokens
    /\ Forall (fun r => r.1 <= r.2) runs
    /\ Sorted (fun r1 r2 => r1.2 + 1 < r2.1) runs
    /\ (forall r x, r ∈ runs -> covers r x -> x ∈ episode_indices)
    /\ (forall x, x ∈ episode_indices ->
          exists r, (r ∈ runs /\ covers r x) /\
                    forall r', r' ∈ runs /\ covers r' x -> r' = r))
  /\ _generate_episode_range_string [1; 2; 3; 5; 8; 9; 10] = "1-3, 5, 8-10"
  /\ _generate_episode_range_string [] = "无".
Proof.
  split; [|split; vm_compute; reflexivity].
  destruct episode_indices as [|x0 xs].
  { exists [], []. split; [done|]. split; [constructor|].
    split; [constructor|]. split; [constructor|].
    split; [intros ? ? Hin | intros ? Hin]; by apply elem_of_nil in Hin. }
  set (l := x0 :: xs).
  unfold _generate_episode_range_string. fold l.
  pose proof (sorted_set_sorted l) as Hsorted.
  pose proof (sorted_set_elem_of l) as Helem.
  destruct (sorted_set l) as [|first rest] eqn:Hss.
  { exfalso. apply (elem_of_nil x0), Helem. left. }
  destruct (runs_loop_spec rest first first ltac:(lia) Hsorted)
    as (_ & Hwf & Hsep & Hcov).
  exists (runs_loop rest first first),
         (map (fun r => range_token r.1 r.2) (runs_loop rest first first)).
  split; [by rewrite range_loop_runs|].
  split.
  { clear. generalize (runs_loop rest first first). intros rs.
    induction rs as [|[a b] rs IH]; constructor; [|done].
    unfold range_token; simpl.
    destruct (Z.eqb_spec a b); split; intros; (done || lia). }
  split; [done|].
  split.
  { clear -Hsep. induction Hsep as [|r runs Hs IH Hhd]; constructor; [done|].
    destruct Hhd as [|r' runs Hrr']; constructor. apply Hrr'. }
  assert (forall x, (exists r, r ∈ runs_loop rest first first /\ covers r x)
                    <-> x ∈ l) as Hcov'.
  { intros x. rewrite Hcov, <- Helem, elem_of_cons. intuition lia. }
  split.
  - intros r x Hr Hc. apply Hcov'. eauto.
  - intros x Hx. apply Hcov' in Hx as (r & Hr & Hc).
    exists r. split; [done|].
    intros r' [Hr' Hc']. by eapply run_before_disjoint.
Qed.

(** C8 as stated fails on its last clause: the empty list is rendered as
    the Chinese literal, not as "none". *)
Lemma range_compression_empty_not_none :
  _generate_episode_range_string [] <> "none".
Proof. vm_compute. discriminate. Qed.

(* ----------------------------------------------------------------- *)
(** ** Rules for task specifications *)

Section Rules.

Variable faults : nat -> option exn.

Lemma hoare_ret {A} (P : World -> Prop) (a : A) Q E :
  (forall w, P w -> Q a w) -> hoare P (ret a) Q E.
Proof. intros H w Hw. simpl. auto. Qed.

Lemma hoare_raise {A} (P : World -> Prop) (e : exn) (Q : A -> World -> Prop) E :
  (forall w, P w -> E e w) -> hoare P (raise e) Q E.
Proof. intros H w Hw. simpl. auto. Qed.

Lemma hoare_bind {A B} P (m : M A) R (k : A -> M B) Q E :
  hoare P m R E -> (forall a, hoare (R a) (k a) Q E) -> hoare P (bind m k) Q E.
Proof.
  intros Hm Hk w Hw. unfold bind. specialize (Hm w Hw).
  destruct (m w) as [[a|e] w']; [by apply Hk | done].
Qed.

Lemma hoare_try_except {A} P (m : M A) Q R (h : exn -> M A) E :
  hoare P m Q R -> (forall e, hoare (R e) (h e) Q E) ->
  hoare P (try_except m h) Q E.
Proof.
  intros Hm Hh w Hw. unfold try_except. specialize (Hm w Hw).
  destruct (m w) as [[a|e] w']; [done | by apply Hh].
Qed.

Lemma hoare_try_finally {A} P (m : M A) (R F : World -> Prop) (f : M unit) :
  hoare P m (fun _ => R) (fun _ => R) ->
  hoare R f (fun _ => F) (fun _ => F) ->
  hoare P (try_finally m f) (fun _ => F) (fun _ => F).
Proof.
  intros Hm Hf w Hw. unfold try_finally. specialize (Hm w Hw).
  destruct (m w) as [r w'].
  assert (R w') as HR by (by destruct r).
  specialize (Hf w' HR). destruct (f w') as [[[]|e] w'']; [|done].
  by destruct r.
Qed.

Lemma hoare_weaken {A} (P P' : World -> Prop) (m : M A) (Q Q' : A -> World -> Prop)
    (E E' : exn -> World -> Prop) :
  hoare P' m Q' E' -> (forall w, P w -> P' w) ->
  (forall a w, Q' a w -> Q a w) -> (forall e w, E' e w -> E e w) ->
  hoare P m Q E.
Proof.
  intros Hm HP HQ HE w Hw. specialize (Hm w (HP w Hw)).
  destruct (m w) as [[a|e] w']; auto.
Qed.

(** An awaited call, for a precondition that does not read the clock. *)
Lemma hoare_await {A} (P : World -> Prop) (effect : M A) Q E :
  (forall w, P w -> P (tick w)) ->
  (forall w e, P w -> E e w) ->
  hoare P effect Q E -> hoare P (await faults effect) Q E.
Proof.
  intros Htick HE Heff w Hw. unfold await.
  destruct (faults (clock w)) as [e|].
  - apply HE, Htick, Hw.
  - apply Heff, Htick, Hw.
Qed.

End Rules.

(* ----------------------------------------------------------------- *)
(** ** The reorder job: what every call keeps *)

Section ReorderFacts.

Variable faults : nat -> option exn.
Variable base : string.

Lemma keeps_bind {A B} P (m : M A) (k : A -> M B) :
  keeps P m -> (forall a, keeps P (k a)) -> keeps P (bind m k).
Proof. intros Hm Hk. eapply hoare_bind; [exact Hm | exact Hk]. Qed.

Lemma keeps_ret {A} P (a : A) : keeps P (ret a).
Proof. by apply hoare_ret. Qed.

Lemma keeps_raise {A} P e : keeps P (@raise A e).
Proof. by apply hoare_raise. Qed.

Lemma keeps_await {A} P (effect : M A) :
  tolerant P -> keeps P effect -> keeps P (await faults effect).
Proof. intros (Ht & _) He. apply hoare_await; auto. Qed.

Lemma keeps_if {A} P (b : bool) (m1 m2 : M A) :
  keeps P m1 -> keeps P m2 -> keeps P (if b then m1 else m2).
Proof. by destruct b. Qed.

Lemma keeps_progress P pct msg st :
  tolerant P -> keeps P (progress_callback faults pct msg st).
Proof.
  intros HP. apply keeps_await; [done|]. intros w Hw. simpl.
  by apply HP.
Qed.

Lemma keeps_execute P line stmt :
  tolerant P -> (forall w, P w -> P (record (EvExecute line stmt) w)) ->
  keeps P (session_execute faults line stmt).
Proof.
  intros HP Hrec. apply keeps_await; [done|]. intros w Hw.
  destruct HP as (_ & _ & Hfk & _).
  destruct stmt; simpl; apply Hfk, Hrec; done.
Qed.

Lemma keeps_mkdir P dir : tolerant P -> keeps P (path_mkdir faults dir).
Proof.
  intros HP. apply keeps_await; [done|]. intros w Hw. simpl. by apply HP.
Qed.

Lemma keeps_rename P old new : tolerant P -> keeps P (path_rename faults old new).
Proof.
  intros HP. apply keeps_await; [done|]. intros w Hw.
  destruct HP as (_ & Hrec & _ & Hfs & _).
  unfold path_rename. destruct (files w !! old); simpl; [|done].
  by apply Hrec, Hfs.
Qed.



Lemma keeps_relocate P old_path new_path :
  tolerant P -> keeps P (relocate_file faults base old_path new_path).
Proof.
  intros HP. unfold relocate_file.
  destruct (relative_to_data old_path); [|apply keeps_raise].
  destruct (relative_to_data new_path); [|apply keeps_raise].
  intros w Hw. destruct (_ && _); [|done].
  revert w Hw. apply keeps_bind; [by apply keeps_mkdir|].
  intros _. by apply keeps_rename.
Qed.

(** *** The predicates of the all-or-nothing argument *)



Lemma tolerant_staging_ok srcs rows sourceId :
  tolerant (staging_ok srcs rows sourceId).
Proof.
  unfold tolerant, staging_ok. split; [|split; [|split; [|split]]].
  - intros w H. exact H.
  - intros w ev Hq H news. simpl. rewrite elem_of_app, list_elem_of_singleton.
    intros [Hin|Heq]; [by apply H | by subst ev].
  - intros w b H. exact H.
  - intros w fs H. exact H.
  - intros w calls H. exact H.
Qed.

Lemma tolerant_planning srcs rows sourceId :
  tolerant (planning srcs rows sourceId).
Proof.
  destruct (tolerant_staging_ok srcs rows sourceId) as (H1 & H2 & H3 & H4 & H5).
  unfold tolerant, planning. split; [|split; [|split; [|split]]].
  - intros w (? & ? & ? & ? & ?). repeat split; try done; by apply H1.
  - intros w ev Hq (? & ? & ? & ? & ?). repeat split; try done; by apply H2.
  - intros w b (? & ? & ? & ? & ?). repeat split; try done; by apply H3.
  - intros w fs (? & ? & ? & ? & ?). repeat split; try done; by apply H4.
  - intros w calls (? & ? & ? & ? & ?). repeat split; try done; by apply H5.
Qed.









Lemma keeps_plan_loop P anime_id source_order eps i olds news :
  tolerant P -> keeps P (plan_loop faults base anime_id source_order eps i olds news).
Proof.
  intros HP. revert i olds news.
  induction eps as [|e eps IH]; intros i olds news; simpl; [apply keeps_ret|].
  destruct (new_id _ _ _); [|apply keeps_raise].
  destruct (_ && _); [apply IH|].
  apply keeps_bind; [|intros _; apply IH].
  destruct (orm_models.danmakuFilePath e) as [p|];
    [destruct (Py.truthy _)|]; try apply keeps_ret.
  by apply keeps_relocate.
Qed.






End ReorderFacts.


(* ----------------------------------------------------------------- *)
(** ** The reorder job: source order and the no-op run *)

Lemma filter_none {A} (P : A -> Prop) `{!forall x, Decision (P x)} (l : list A) :
  Forall (fun x => ~ P x) l -> filter P l = [].
Proof.
  induction 1 as [|x l Hx Hl IH]; [done|].
  by rewrite filter_cons_False.
Qed.

Lemma list_index_sorted (x : Z) (l : list Z) :
  Sorted Z.lt l -> x ∈ l ->
  list_index x l = Some (length (filter (fun y => y < x) l)).
Proof.
  intros Hs. apply Sorted_StronglySorted in Hs; [|apply _].
  induction Hs as [|y l Hs IH Hy]; intros Hx.
  - by apply elem_of_nil in Hx.
  - simpl. rewrite Forall_forall in Hy.
    destruct (Z.eqb_spec y x) as [->|Hne].
    + rewrite filter_cons_False by lia.
      assert (filter (fun y => y < x) l = []) as ->; [|done].
      apply filter_none, Forall_forall. intros z Hz.
      specialize (Hy z Hz). lia.
    + apply elem_of_cons in Hx as [->|Hx]; [done|].
      specialize (Hy x Hx). rewrite filter_cons_True by lia.
      rewrite (IH Hx). done.
Qed.

Lemma filter_length_map_fst (srcs : list (Z * Z)) (a x : Z) :
  length (filter (fun y => y < x) (map fst (filter (fun kv => kv.2 = a) srcs)))
  = length (filter (fun kv => kv.2 = a /\ kv.1 < x) srcs).
Proof.
  induction srcs as [|[k v] srcs IH]; [done|].
  destruct (decide (v = a)) as [->|Hne].
  - rewrite (filter_cons_True (fun kv => kv.2 = a)) by done. simpl map.
    destruct (decide (k < x)).
    + rewrite !filter_cons_True by (simpl; auto). simpl. by rewrite IH.
    + rewrite !filter_cons_False by (simpl; tauto). done.
  - rewrite (filter_cons_False (fun kv => kv.2 = a)) by done.
    rewrite (filter_cons_False (fun kv => kv.2 = a /\ kv.1 < x)) by (simpl; tauto).
    done.
Qed.

(** The source order the job computes is the rank of the source id among
    the ids of the sources of its work. *)
Lemma source_order_is_rank (srcs : gmap Z Z) (anime_id sourceId : Z) :
  srcs !! sourceId = Some anime_id ->
  exists k, list_index sourceId (source_ids_of srcs anime_id) = Some k /\
            Z.of_nat k + 1 = source_rank srcs anime_id sourceId.
Proof.
  intros Hsrc. unfold source_ids_of, source_rank.
  set (l := map fst (filter (fun kv => kv.2 = anime_id) (map_to_list srcs))).
  assert (NoDup l) as Hnd.
  { unfold l. eapply (sublist_NoDup _ (map fst (map_to_list srcs))).
    - apply NoDup_fst_map_to_list.
    - apply fmap_sublist, sublist_filter. }
  assert (sourceId ∈ l) as Hin.
  { unfold l. apply (list_elem_of_fmap_2 fst _ (sourceId, anime_id)).
    apply list_elem_of_filter. split; [done|].
    by apply elem_of_map_to_list. }
  eexists. split.
  - apply list_index_sorted.
    + apply strictly_sorted; [apply (StronglySorted_merge_sort Z.le)|].
      by rewrite merge_sort_Permutation.
    + by rewrite merge_sort_Permutation.
  - f_equal. f_equal.
    rewrite (Permutation_length
               (filter_Permutation _ _ _ (merge_sort_Permutation Z.le l))).
    apply filter_length_map_fst.
Qed.

Section NoFaults.

Variable faults : nat -> option exn.
Variable base : string.
Hypothesis no_faults : forall n, faults n = None.

Lemma await_no_faults {A} (effect : M A) (w : World) :
  await faults effect w = effect (tick w).
Proof. unfold await. by rewrite no_faults. Qed.

(** On episodes that are all in place the planning loop stages nothing
    and touches nothing. *)
Lemma plan_loop_in_place anime_id source_order eps i olds news w :
  (forall j e, eps !! j = Some e ->
     new_id anime_id source_order (i + Z.of_nat j + 1) = Some (orm_models.id e) /\
     orm_models.episodeIndex e = i + Z.of_nat j + 1) ->
  plan_loop faults base anime_id source_order eps i olds news w
  = (Ok (olds, news), w).
Proof.
  revert i. induction eps as [|e eps IH]; intros i Hok; [done|].
  simpl. destruct (Hok O e eq_refl) as [Hid Hidx].
  replace (i + Z.of_nat 0 + 1) with (i + 1) in * by lia.
  rewrite Hid, Hidx, !Z.eqb_refl. simpl.
  apply IH. intros j e' Hj. specialize (Hok (S j) e' Hj).
  replace (i + 1 + Z.of_nat j + 1) with (i + Z.of_nat (S j) + 1) by lia.
  done.
Qed.

End NoFaults.

Section NoOp.

Variable faults : nat -> option exn.
Variable base : string.
Hypothesis no_faults : forall n, faults n = None.

Ltac nf_step :=
  cbn [record tick dialect clock sources stored view pending_delete
       pending_add fk_checks files budget journal set_fk_checks set_session
       set_stored flush_pending insert_rows delete_rows foldr].

Lemma reorder_noop_once (sourceId anime_id : Z) (rows : gmap Z EpisodeColumns)
    (w : World) :
  session_clean rows w ->
  sources w !! sourceId = Some anime_id ->
  (forall j e, episodes_of rows sourceId !! j = Some e ->
     new_id anime_id (source_rank (sources w) anime_id sourceId)
            (Z.of_nat j + 1) = Some (orm_models.id e) /\
     orm_models.episodeIndex e = Z.of_nat j + 1) ->
  exists msg w' evs,
    reorder_episodes_task faults base sourceId w = (Raise (TaskSuccess msg), w') /\
    (msg = msg_no_episodes \/ msg = msg_all_correct) /\
    session_clean rows w' /\ sources w' = sources w /\ files w' = files w /\
    journal w' = journal w ++ evs /\
    Forall (fun ev => is_migration_event ev = false) evs.
Proof.
  intros (Hst & Hvw & Hpd & Hpa) Hsrc Hok.
  destruct (source_order_is_rank _ _ _ Hsrc) as (k & Hk & Hrank).
  destruct w as [clk dial srcs st vw pd pa fk fs bud jr].
  simpl in *. subst st vw pd pa.
  assert (forall w0, session_clean rows w0 ->
            plan_loop faults base anime_id (Z.of_nat k + 1)
              (episodes_of rows sourceId) 0 [] [] w0 = (Ok ([], []), w0)) as Hplan.
  { intros w0 _. apply (plan_loop_in_place faults).
    intros j e Hj. rewrite Hrank, !Z.add_0_l. by apply Hok. }
  unfold reorder_episodes_task, reorder_transaction, restore_integrity,
    try_except, try_finally, bind, progress_callback, session_execute,
    session_commit, session_rollback, get_anime_source_info,
    select_source_ids, select_episodes, ret, raise.
  rewrite (await_no_faults faults no_faults). nf_step.
  destruct (String.eqb dial "mysql"), (String.eqb dial "postgresql");
    repeat (progress (rewrite ?(await_no_faults faults no_faults), ?no_faults;
                      nf_step; rewrite ?Hsrc, ?Hk));
    (destruct (episodes_of rows sourceId) as [|e eps] eqn:Heps;
     [|cbv beta iota; rewrite (await_no_faults faults no_faults); nf_step;
       rewrite Hplan by done]);
    repeat (progress (rewrite ?(await_no_faults faults no_faults), ?no_faults;
                      nf_step));
    (eexists _, _, _; split; [reflexivity|]);
    (split; [by (left + right)|]);
    (split; [by repeat split|]);
    (split; [done|]); (split; [done|]);
    (split; [nf_step; rewrite <- ?app_assoc; reflexivity|]);
    by repeat constructor.
Qed.

End NoOp.

(* ----------------------------------------------------------------- *)
(** ** The reorder job: the identities it stages *)

Section Staging.

Variable faults : nat -> option exn.
Variable base : string.

(** What the planning loop returns, whatever happens to the files. *)
Lemma plan_loop_result a o eps i olds news w olds' news' w' :
  plan_loop faults base a o eps i olds news w = (Ok (olds', news'), w') ->
  exists adds, news' = news ++ adds /\
    (forall ne : Episode, ne ∈ adds ->
       exists (j : nat) (old : Episode), eps !! j = Some old /\
         new_id a o (i + Z.of_nat j + 1) = Some (orm_models.id ne) /\
         orm_models.episodeIndex ne = i + Z.of_nat j + 1 /\
         orm_models.sourceId ne = orm_models.sourceId old /\
         orm_models.title ne = orm_models.title old /\
         orm_models.sourceUrl ne = orm_models.sourceUrl old /\
         orm_models.providerEpisodeId ne = orm_models.providerEpisodeId old /\
         orm_models.fetchedAt ne = orm_models.fetchedAt old /\
         orm_models.commentCount ne = orm_models.commentCount old) /\
    (forall (j : nat) (old : Episode), eps !! j = Some old ->
       exists nid,
         new_id a o (i + Z.of_nat j + 1) = Some nid /\
         ((orm_models.id old = nid /\
           orm_models.episodeIndex old = i + Z.of_nat j + 1) \/
          (exists ne : Episode, ne ∈ adds /\ orm_models.id ne = nid /\
             orm_models.episodeIndex ne = i + Z.of_nat j + 1))).
Proof.
  revert i olds news w.
  induction eps as [|e eps IH]; intros i olds news w Hrun; simpl in Hrun.
  - injection Hrun as <- <- <-. exists []. rewrite app_nil_r.
    split; [done|]. split; [intros ? Hin; by apply elem_of_nil in Hin|].
    intros j old Hj. done.
  - destruct (new_id a o (i + 1)) as [nid|] eqn:Hnid; [|done].
    destruct (_ && _) eqn:Hplace.
    + apply andb_true_iff in Hplace as [Hid Hidx].
      apply Z.eqb_eq in Hid, Hidx.
      destruct (IH _ _ _ _ Hrun) as (adds & -> & Hadds & Hall).
      exists adds. split; [done|]. split.
      * intros ne Hne. destruct (Hadds ne Hne) as (j & old & Hj & Hrest).
        exists (S j), old. split; [done|].
        by replace (i + Z.of_nat (S j) + 1) with (i + 1 + Z.of_nat j + 1) by lia.
      * intros [|j] old Hj.
        -- injection Hj as ->. exists nid.
           replace (i + Z.of_nat 0 + 1) with (i + 1) by lia. auto.
        -- destruct (Hall j old Hj) as (nid' & Hn' & Hcase).
           exists nid'.
           by replace (i + Z.of_nat (S j) + 1) with (i + 1 + Z.of_nat j + 1) by lia.
    + unfold bind in Hrun.
      match type of Hrun with
      | context [match ?m w with _ => _ end] =>
          destruct (m w) as [[[]|ex] w1]; [|done]
      end.
      destruct (IH _ _ _ _ Hrun) as (adds & -> & Hadds & Hall).
      eexists (_ :: adds). split; [by rewrite <- app_assoc|]. split.
      * intros ne Hne. apply elem_of_cons in Hne as [->|Hne].
        -- exists O, e. replace (i + Z.of_nat 0 + 1) with (i + 1) by lia.
           by repeat split.
        -- destruct (Hadds ne Hne) as (j & old & Hj & Hrest).
           exists (S j), old. split; [done|].
           by replace (i + Z.of_nat (S j) + 1) with (i + 1 + Z.of_nat j + 1) by lia.
      * intros [|j] old Hj.
        -- injection Hj as ->. exists nid.
           replace (i + Z.of_nat 0 + 1) with (i + 1) by lia.
           split; [done|]. right. eexists. split; [by left|]. done.
        -- destruct (Hall j old Hj) as (nid' & Hn' & Hcase).
           exists nid'.
           replace (i + Z.of_nat (S j) + 1) with (i + 1 + Z.of_nat j + 1) by lia.
           split; [done|]. destruct Hcase as [?|(ne & Hne & ?)]; [by left|].
           right. exists ne. split; [by right | done].
Qed.

Context (srcs : gmap Z Z) (rows : gmap Z EpisodeColumns) (sourceId : Z).

#[local] Abbreviation staging := (staging_ok srcs rows sourceId).
#[local] Abbreviation plan := (planning srcs rows sourceId).

Lemma planning_staging w : plan w -> staging w.
Proof. by intros (_ & _ & _ & _ & ?). Qed.

Lemma staging_record w ev :
  (forall news, ev = EvAddAll news -> staged_ok srcs rows sourceId news) ->
  staging w -> staging (record ev w).
Proof.
  intros Hev H news. simpl. rewrite elem_of_app, list_elem_of_singleton.
  intros [Hin|Heq]; [by apply H | by apply Hev].
Qed.

Lemma keeps_session_staging {A} (effect : M A) :
  (forall w, staging w ->
     match effect w with (_, w') => staging w' end) ->
  keeps staging (await faults effect).
Proof.
  intros H. apply keeps_await; [apply tolerant_staging_ok|].
  intros w Hw. specialize (H w Hw). by destruct (effect w) as [[?|?] ?].
Qed.

Lemma flush_pending_staging w :
  staging w -> staging (flush_pending w).2.
Proof. unfold flush_pending. by destruct (insert_rows _ _). Qed.

Lemma keeps_commit_staging line : keeps staging (session_commit faults line).
Proof.
  apply keeps_session_staging. intros w Hw.
  pose proof (flush_pending_staging w Hw) as H.
  destruct (flush_pending w) as [[[]|e] w']; [|done].
  by apply staging_record.
Qed.

Lemma keeps_flush_staging : keeps staging (session_flush faults).
Proof.
  apply keeps_session_staging. intros w Hw.
  pose proof (flush_pending_staging w Hw) as H.
  destruct (flush_pending w) as [[[]|e] w']; [|done].
  by apply staging_record.
Qed.

Lemma keeps_delete_all_staging eps : keeps staging (delete_all faults eps).
Proof.
  induction eps as [|e eps IH]; simpl; [apply keeps_ret|].
  apply keeps_bind; [|done].
  apply keeps_session_staging. intros w Hw. by apply staging_record.
Qed.

Lemma keeps_rollback_staging : keeps staging (session_rollback faults).
Proof.
  intros w Hw. unfold session_rollback.
  assert (staging (record EvRollback (set_session (stored w) [] [] (tick w)))).
  { by apply staging_record. }
  by destruct (faults (clock w)).
Qed.

Lemma keeps_commit_planning line : keeps plan (session_commit faults line).
Proof.
  apply keeps_await; [apply tolerant_planning|].
  intros w (Hs & Hv & Hd & Ha & Hj). unfold flush_pending.
  rewrite Ha, Hd. simpl. repeat split; try done.
  by apply staging_record.
Qed.

Lemma transaction_staging :
  hoare plan (reorder_transaction faults base sourceId)
    (fun _ _ => False) (fun _ => staging).
Proof.
  pose proof (tolerant_planning srcs rows sourceId) as HT.
  pose proof (tolerant_staging_ok srcs rows sourceId) as HS.
  unfold reorder_transaction.
  eapply (hoare_bind _ _ (fun a w => plan w /\ a = srcs !! sourceId)).
  { apply hoare_await; [apply HT | intros; by apply planning_staging|].
    intros w Hw. simpl. split; [done|]. by destruct Hw as (-> & _). }
  intros source_info. destruct source_info as [anime_id|];
    [|apply hoare_raise; intros w [Hw _]; by apply planning_staging].
  eapply (hoare_bind _ _
            (fun a w => plan w /\ srcs !! sourceId = Some anime_id /\
                        a = source_ids_of srcs anime_id)).
  { apply hoare_await.
    - intros w [Hw ?]. split; [by apply HT | done].
    - intros w e [Hw _]. by apply planning_staging.
    - intros w [Hw Heq]. simpl. split; [done|]. split; [done|].
      by destruct Hw as (-> & _). }
  intros ids. destruct (list_index sourceId ids) as [k|] eqn:Hk;
    [|apply hoare_raise; intros w [Hw _]; by apply planning_staging].
  eapply (hoare_bind _ _
            (fun a w => plan w /\ srcs !! sourceId = Some anime_id /\
                        ids = source_ids_of srcs anime_id /\
                        a = episodes_of rows sourceId)).
  { apply hoare_await.
    - intros w (Hw & ? & ?). split; [by apply HT | done].
    - intros w e [Hw _]. by apply planning_staging.
    - intros w (Hw & Hsrc & Hids).
      destruct Hw as (Hs & Hv & Hd & Ha & Hj). unfold flush_pending.
      rewrite Ha, Hd. simpl. rewrite Hv. by repeat split. }
  intros eps. destruct eps as [|e0 eps0] eqn:Heps;
    [apply hoare_raise; intros w [Hw _]; by apply planning_staging|].
  rewrite <- Heps. clear e0 eps0 Heps.
  eapply (hoare_bind _ _
            (fun _ w => plan w /\ srcs !! sourceId = Some anime_id /\
                        ids = source_ids_of srcs anime_id /\
                        eps = episodes_of rows sourceId)).
  { intros w (Hw & Hrest).
    pose proof (keeps_progress faults plan 10 "正在计算新的分集编号..." None HT w Hw) as H.
    destruct (progress_callback _ _ _ _ w) as [[[]|e] w'];
      [done | by apply planning_staging]. }
  intros _.
  eapply (hoare_bind _ _
            (fun pl w => staging w /\ staged_ok srcs rows sourceId pl.2)).
  { intros w (Hw & Hsrc & Hids & Heps).
    pose proof (keeps_plan_loop faults base plan anime_id (Z.of_nat k + 1)
                  eps 0 [] [] HT w Hw) as Hkeep.
    destruct (plan_loop _ _ _ _ _ _ _ _ w) as [[[olds news]|e] w'] eqn:Hrun;
      [|by apply planning_staging].
    split; [by apply planning_staging|].
    destruct (plan_loop_result _ _ _ _ _ _ _ _ _ _ Hrun)
      as (adds & Hnews & Hadds & Hall).
    simpl in Hnews. subst news. simpl.
    destruct (source_order_is_rank _ _ _ Hsrc) as (k' & Hk' & Hrank).
    rewrite <- Hids, Hk in Hk'. injection Hk' as <-.
    exists anime_id. split; [done|]. simpl. rewrite <- Hrank, <- Heps.
    split.
    - intros ne Hne. destruct (Hadds ne Hne) as (j & old & Hj & Hrest).
      exists j, old. by rewrite !Z.add_0_l in Hrest.
    - intros j old Hj. destruct (Hall j old Hj) as (nid & Hrest).
      exists nid. by rewrite !Z.add_0_l in Hrest. }
  intros [olds news]. destruct olds as [|o1 olds];
    [apply hoare_raise; by intros w [Hw _]|].
  eapply (hoare_bind _ _ (fun _ w => staging w /\ staged_ok srcs rows sourceId news)).
  { intros w [Hw Hok].
    pose proof (keeps_progress faults staging 30
      ("准备迁移 " +:+ Py.str (Z.of_nat (length (o1 :: olds))) +:+ " 个分集...")
      None HS w Hw) as H.
    by destruct (progress_callback _ _ _ _ w) as [[[]|e] w']. }
  intros _.
  eapply (hoare_bind _ _ (fun _ w => staging w /\ staged_ok srcs rows sourceId news)).
  { intros w [Hw Hok].
    pose proof (keeps_delete_all_staging (o1 :: olds) w Hw) as H.
    by destruct (delete_all _ _ w) as [[[]|e] w']. }
  intros _.
  eapply (hoare_bind _ _ (fun _ w => staging w /\ staged_ok srcs rows sourceId news)).
  { intros w [Hw Hok].
    pose proof (keeps_flush_staging w Hw) as H.
    by destruct (session_flush _ w) as [[[]|e] w']. }
  intros _.
  eapply (hoare_bind _ _ (fun _ w => staging w)).
  { intros w [Hw Hok]. simpl. apply staging_record; [|done].
    by intros ? [= <-]. }
  intros _.
  eapply hoare_bind; [apply keeps_commit_staging|].
  intros ?. by apply hoare_raise.
Qed.

Lemma reorder_staging :
  hoare plan (reorder_episodes_task faults base sourceId)
    (fun _ => staging) (fun _ => staging).
Proof.
  pose proof (tolerant_planning srcs rows sourceId) as HT.
  pose proof (tolerant_staging_ok srcs rows sourceId) as HS.
  unfold reorder_episodes_task.
  eapply (hoare_bind _ _ (fun _ => plan)).
  { eapply hoare_weaken; [by apply (keeps_progress faults plan)|..]; try done.
    intros e w. apply planning_staging. }
  intros _ w0 Hw0.
  generalize (String.eqb (dialect w0) "mysql")
             (String.eqb (dialect w0) "postgresql").
  intros is_mysql is_postgres. revert w0 Hw0.
  change (hoare plan
    (try_except
       ((if is_mysql then session_execute faults 723 (SetForeignKeyChecks false)
         else if is_postgres
              then session_execute faults 725 (SetSessionReplicationRole "replica")
              else ret tt) ;;
        session_commit faults 728 ;;
        try_finally
          (try_except (reorder_transaction faults base sourceId)
             (fun e => session_rollback faults ;; raise e))
          (restore_integrity faults is_mysql is_postgres))
       (fun e => raise e)) (fun _ => staging) (fun _ => staging)).
  eapply hoare_try_except; [|intros e; apply keeps_raise].
  eapply (hoare_bind _ _ (fun _ => plan)).
  { eapply hoare_weaken with (P' := plan) (Q' := fun _ => plan) (E' := fun _ => plan);
      try done; [|intros e w; apply planning_staging].
    repeat apply keeps_if; try apply keeps_ret;
      (apply keeps_execute; [done|]);
      intros w (? & ? & ? & ? & ?); repeat split; try done;
      by apply staging_record. }
  intros _.
  eapply (hoare_bind _ _ (fun _ => plan)).
  { eapply hoare_weaken; [apply (keeps_commit_planning 728)|..]; try done.
    intros e w. apply planning_staging. }
  intros _.
  apply (hoare_try_finally _ _ staging).
  - eapply hoare_try_except.
    + eapply hoare_weaken; [apply transaction_staging|..]; try done.
    + intros e. simpl. eapply hoare_bind; [apply keeps_rollback_staging|].
      intros ?. apply keeps_raise.
  - unfold restore_integrity.
    apply keeps_bind; [|intros _; apply keeps_commit_staging].
    repeat apply keeps_if; try apply keeps_ret;
      (apply keeps_execute; [done|]); intros w ?; by apply staging_record.
Qed.

End Staging.

(* ----------------------------------------------------------------- *)
(** ** The reorder job: what it writes to the journal *)

Section Journal.

Variable faults : nat -> option exn.
Variable base : string.

Lemma emits_ret {A} S (a : A) : emits S (ret a).
Proof. intros w. exists []. by rewrite app_nil_r. Qed.

Lemma emits_raise {A} S e : emits S (@raise A e).
Proof. intros w. exists []. by rewrite app_nil_r. Qed.

Lemma emits_bind {A B} S (m : M A) (k : A -> M B) :
  emits S m -> (forall a, emits S (k a)) -> emits S (bind m k).
Proof.
  intros Hm Hk w. unfold bind. destruct (Hm w) as (evs & Hj & Hf).
  destruct (m w) as [[a|e] w']; simpl in *; [|eauto].
  destruct (Hk a w') as (evs' & Hj' & Hf').
  exists (evs ++ evs'). rewrite Hj', Hj, app_assoc. split; [done|].
  by apply Forall_app.
Qed.

Lemma emits_try_except {A} S (m : M A) (h : exn -> M A) :
  emits S m -> (forall e, emits S (h e)) -> emits S (try_except m h).
Proof.
  intros Hm Hh w. unfold try_except. destruct (Hm w) as (evs & Hj & Hf).
  destruct (m w) as [[a|e] w']; simpl in *; [eauto|].
  destruct (Hh e w') as (evs' & Hj' & Hf').
  exists (evs ++ evs'). rewrite Hj', Hj, app_assoc. split; [done|].
  by apply Forall_app.
Qed.

Lemma emits_try_finally {A} S (m : M A) (f : M unit) :
  emits S m -> emits S f -> emits S (try_finally m f).
Proof.
  intros Hm Hf w. unfold try_finally. destruct (Hm w) as (evs & Hj & HS).
  destruct (m w) as [r w']; simpl in *.
  destruct (Hf w') as (evs' & Hj' & HS').
  exists (evs ++ evs'). split; [|by apply Forall_app].
  destruct (f w') as [[[]|e] w'']; simpl in *; by rewrite Hj', Hj, app_assoc.
Qed.

Lemma emits_if {A} S (b : bool) (m1 m2 : M A) :
  emits S m1 -> emits S m2 -> emits S (if b then m1 else m2).
Proof. by destruct b. Qed.

Lemma emits_await {A} S (effect : M A) :
  emits S effect -> emits S (await faults effect).
Proof.
  intros He w. unfold await. destruct (faults (clock w)); simpl.
  - exists []. by rewrite app_nil_r.
  - apply (He (tick w)).
Qed.

Lemma emits_one {A} S (a : A) (ev : event) (f : World -> World) :
  (forall w, journal (f w) = journal w) -> S ev ->
  emits S (fun w => (Ok a, record ev (f w))).
Proof.
  intros Hf Hev w. exists [ev]. simpl. rewrite Hf. split; [done|].
  by constructor.
Qed.

Lemma emits_progress S pct msg st :
  S (EvProgress pct msg st) -> emits S (progress_callback faults pct msg st).
Proof. intros H. apply emits_await. by apply (emits_one S tt _ (fun w => w)). Qed.

Lemma emits_execute S line stmt :
  S (EvExecute line stmt) -> emits S (session_execute faults line stmt).
Proof.
  intros H. apply emits_await. intros w. exists [EvExecute line stmt].
  split; [by destruct stmt | by constructor].
Qed.

Lemma flush_pending_journal w : journal (flush_pending w).2 = journal w.
Proof. unfold flush_pending. by destruct (insert_rows _ _). Qed.

Lemma emits_commit S line :
  S (EvCommit line) -> emits S (session_commit faults line).
Proof.
  intros H. apply emits_await. intros w.
  pose proof (flush_pending_journal w) as Hj.
  destruct (flush_pending w) as [[[]|e] w']; simpl in *.
  - exists [EvCommit line]. rewrite Hj. split; [done | by constructor].
  - exists []. by rewrite app_nil_r.
Qed.

Lemma emits_flush S : S EvFlush -> emits S (session_flush faults).
Proof.
  intros H. apply emits_await. intros w.
  pose proof (flush_pending_journal w) as Hj.
  destruct (flush_pending w) as [[[]|e] w']; simpl in *.
  - exists [EvFlush]. rewrite Hj. split; [done | by constructor].
  - exists []. by rewrite app_nil_r.
Qed.

Lemma emits_rollback S : S EvRollback -> emits S (session_rollback faults).
Proof.
  intros H w. exists [EvRollback]. unfold session_rollback.
  split; [by destruct (faults (clock w)) | by constructor].
Qed.

Lemma emits_delete_all S eps :
  (forall k, S (EvDelete k)) -> emits S (delete_all faults eps).
Proof.
  intros H. induction eps as [|e eps IH]; [apply emits_ret|].
  apply emits_bind; [|done]. apply emits_await.
  by apply (emits_one S tt _ (fun w => set_session _ _ _ w)).
Qed.

Lemma emits_add_all S eps : S (EvAddAll eps) -> emits S (session_add_all eps).
Proof. intros H. by apply (emits_one S tt _ (fun w => set_session _ _ _ w)). Qed.

Lemma emits_select_episodes S sourceId :
  emits S (select_episodes faults sourceId).
Proof.
  apply emits_await. intros w. exists []. rewrite app_nil_r.
  pose proof (flush_pending_journal w) as Hj.
  by destruct (flush_pending w) as [[[]|e] w'].
Qed.

Lemma emits_relocate S old_path new_path :
  (forall d, S (EvMkdir d)) -> (forall a b, S (EvRename a b)) ->
  emits S (relocate_file faults base old_path new_path).
Proof.
  intros Hm Hr. unfold relocate_file.
  destruct (relative_to_data old_path); [|apply emits_raise].
  destruct (relative_to_data new_path); [|apply emits_raise].
  intros w. destruct (_ && _); [|exists []; by rewrite app_nil_r].
  revert w. apply emits_bind.
  - apply emits_await. by apply (emits_one S tt _ (fun w => w)).
  - intros _. apply emits_await. intros w. unfold path_rename.
    destruct (files w !! _); simpl.
    + eexists [_]. split; [done | by constructor].
    + exists []. by rewrite app_nil_r.
Qed.

Lemma emits_plan_loop S a o eps i olds news :
  (forall d, S (EvMkdir d)) -> (forall x y, S (EvRename x y)) ->
  emits S (plan_loop faults base a o eps i olds news).
Proof.
  intros Hm Hr. revert i olds news.
  induction eps as [|e eps IH]; intros i olds news; simpl; [apply emits_ret|].
  destruct (new_id _ _ _); [|apply emits_raise].
  destruct (_ && _); [apply IH|].
  apply emits_bind; [|intros _; apply IH].
  destruct (orm_models.danmakuFilePath e) as [p|];
    [destruct (Py.truthy _)|]; try apply emits_ret.
  by apply emits_relocate.
Qed.

(** The transaction block sends no statement. *)
Lemma emits_transaction S sourceId :
  (forall ev, (forall line stmt, ev <> EvExecute line stmt) -> S ev) ->
  emits S (reorder_transaction faults base sourceId).
Proof.
  intros HS. unfold reorder_transaction.
  apply emits_bind.
  { apply emits_await. intros w. exists []. by rewrite app_nil_r. }
  intros [anime_id|]; [|apply emits_raise].
  apply emits_bind.
  { apply emits_await. intros w. exists []. by rewrite app_nil_r. }
  intros ids. destruct (list_index _ _); [|apply emits_raise].
  apply emits_bind; [apply emits_select_episodes|].
  intros [|e eps]; [apply emits_raise|].
  apply emits_bind; [apply emits_progress; by apply HS|]. intros _.
  apply emits_bind; [apply emits_plan_loop; intros; by apply HS|].
  intros [[|o olds] news]; [apply emits_raise|].
  apply emits_bind; [apply emits_progress; by apply HS|]. intros _.
  apply emits_bind; [apply emits_delete_all; intros; by apply HS|]. intros _.
  apply emits_bind; [apply emits_flush; by apply HS|]. intros _.
  apply emits_bind; [apply emits_add_all; by apply HS|]. intros _.
  apply emits_bind; [apply emits_commit; by apply HS|]. intros _.
  apply emits_raise.
Qed.

(** Once the statement of the [finally] block has run, integrity
    checking is on when the job ends; before that block, no such
    statement is in the journal. *)
Lemma restore_integrity_restores is_mysql is_postgres w :
  Forall (fun ev => ~ is_restore ev) (journal w) ->
  let w' := (restore_integrity faults is_mysql is_postgres w).2 in
  Exists is_restore (journal w') -> fk_checks w' = true.
Proof.
  intros Hno. unfold restore_integrity, bind, session_execute, session_commit,
    await, ret.
  assert (forall l, Forall (fun ev => ~ is_restore ev) l ->
                    Exists is_restore l -> False) as Habs.
  { intros l Hf He. apply Exists_exists in He as (ev & Hin & Hev).
    rewrite Forall_forall in Hf. by apply (Hf ev). }
  assert (forall w0, fk_checks (flush_pending w0).2 = fk_checks w0) as Hfk.
  { intros w0. unfold flush_pending. by destruct (insert_rows _ _). }
  assert (forall w0, journal (flush_pending w0).2 = journal w0) as Hjr
    by apply flush_pending_journal.
  destruct is_mysql; [|destruct is_postgres].
  - destruct (faults (clock w)); simpl; [intros H; by destruct (Habs _ Hno H)|].
    destruct (faults _); simpl; [done|].
    match goal with |- context [flush_pending ?w0] =>
      specialize (Hfk w0); destruct (flush_pending w0) as [[[]|e] w1] end;
      simpl in *; intros _; by rewrite Hfk.
  - destruct (faults (clock w)); simpl; [intros H; by destruct (Habs _ Hno H)|].
    destruct (faults _); simpl; [done|].
    match goal with |- context [flush_pending ?w0] =>
      specialize (Hfk w0); destruct (flush_pending w0) as [[[]|e] w1] end;
      simpl in *; intros _; by rewrite Hfk.
  - simpl. destruct (faults (clock w)); simpl;
      [intros H; by destruct (Habs _ Hno H)|].
    match goal with |- context [flush_pending ?w0] =>
      specialize (Hjr w0); destruct (flush_pending w0) as [[[]|e] w1] end;
      simpl in *; rewrite Hjr; intros H.
    + apply Exists_app in H as [H|H]; [by destruct (Habs _ Hno H)|].
      apply Exists_cons in H as [(stmt & [?|?])|H]; [done..|].
      by apply Exists_nil in H.
    + by destruct (Habs _ Hno H).
Qed.

End Journal.

Section Restore.

Variable faults : nat -> option exn.
Variable base : string.

Lemma emits_keeps {A} (S ok : event -> Prop) (m : M A) :
  emits S m -> (forall ev, S ev -> ok ev) ->
  keeps (fun w => Forall ok (journal w)) m.
Proof.
  intros He Hi w Hw. destruct (He w) as (evs & Hj & Hf).
  assert (Forall ok (journal (m w).2)) as H.
  { rewrite Hj. apply Forall_app. split; [done|].
    eapply Forall_impl; [exact Hf | exact Hi]. }
  by destruct (m w) as [[a|e] w'].
Qed.

Lemma not_restored_restored w : not_restored w -> restored w.
Proof.
  intros Hf He. apply Exists_exists in He as (ev & Hin & Hev).
  unfold not_restored in Hf. rewrite Forall_forall in Hf. by destruct (Hf ev).
Qed.

Lemma keeps_not_restored {A} (m : M A) :
  emits (fun ev => ~ is_restore ev) m -> keeps not_restored m.
Proof. intros H. by apply (emits_keeps _ _ m H). Qed.

Lemma reorder_restored sourceId :
  hoare not_restored (reorder_episodes_task faults base sourceId)
    (fun _ => restored) (fun _ => restored).
Proof.
  assert (forall ev, (forall line stmt, ev <> EvExecute line stmt) ->
                     ~ is_restore ev) as Hne.
  { intros ev H (stmt & [->| ->]); by eapply H. }
  unfold reorder_episodes_task.
  eapply (hoare_bind _ _ (fun _ => not_restored)).
  { eapply hoare_weaken with (Q' := fun _ => not_restored);
      [apply keeps_not_restored, emits_progress; by apply Hne|..]; try done.
    intros e w. apply not_restored_restored. }
  intros _ w0 Hw0.
  generalize (String.eqb (dialect w0) "mysql")
             (String.eqb (dialect w0) "postgresql").
  intros is_mysql is_postgres. revert w0 Hw0.
  change (hoare not_restored
    (try_except
       ((if is_mysql then session_execute faults 723 (SetForeignKeyChecks false)
         else if is_postgres
              then session_execute faults 725 (SetSessionReplicationRole "replica")
              else ret tt) ;;
        session_commit faults 728 ;;
        try_finally
          (try_except (reorder_transaction faults base sourceId)
             (fun e => session_rollback faults ;; raise e))
          (restore_integrity faults is_mysql is_postgres))
       (fun e => raise e)) (fun _ => restored) (fun _ => restored)).
  eapply hoare_try_except; [|intros e; apply keeps_raise].
  eapply (hoare_bind _ _ (fun _ => not_restored)).
  { eapply hoare_weaken with (Q' := fun _ => not_restored);
      [apply keeps_not_restored|..]; try done;
      [|intros e w; apply not_restored_restored].
    repeat apply emits_if; try apply emits_ret; apply emits_execute;
      intros (stmt & [?|?]); done. }
  intros _.
  eapply (hoare_bind _ _ (fun _ => not_restored)).
  { eapply hoare_weaken with (Q' := fun _ => not_restored);
      [apply keeps_not_restored, emits_commit; by apply Hne|..]; try done.
    intros e w. apply not_restored_restored. }
  intros _.
  apply (hoare_try_finally _ _ not_restored).
  - apply keeps_not_restored, emits_try_except.
    + by apply emits_transaction.
    + intros e. apply emits_bind; [apply emits_rollback; by apply Hne|].
      intros _. apply emits_raise.
  - intros w Hw.
    pose proof (restore_integrity_restores faults is_mysql is_postgres w Hw) as H.
    by destruct (restore_integrity _ _ _ w) as [[[]|e] w'].
Qed.

End Restore.

(* ----------------------------------------------------------------- *)
(** ** The reorder job: the statements *)

(** C1.  In any run of the reorder job on a fresh session, whatever
    faults strike, the rows it stages are as follows.  Let the work id be
    the one of the source, the source order the 1-based rank of the
    source id among the ids of the work's sources, and the episodes of
    the source be taken in the order of (index, id).  Then for every
    episode at 1-based position [j + 1] the new identity is the decimal
    integer of "25", the work id padded to 6 digits, the source order
    padded to 2 digits and [j + 1] padded to 4 digits: the episode either
    has this identity and the index [j + 1] already, or a staged row has
    them; and every staged row is of this kind. *)
Theorem reorder_identity_encoding (faults : nat -> option exn) (base : string)
    (sourceId : Z) (dialect_name : string) (srcs : gmap Z Z)
    (rows : gmap Z EpisodeColumns) (fs : gmap string ustr)
    (calls : gmap string nat) (r : result unit) (w : World)
    (news : list Episode) :
  reorder_episodes_task faults base sourceId
    (new_session dialect_name srcs rows fs calls) = (r, w) ->
  EvAddAll news ∈ journal w ->
  exists anime_id,
    srcs !! sourceId = Some anime_id /\
    let source_order :=
      Z.of_nat (length (filter (fun kv => kv.2 = anime_id /\ kv.1 < sourceId)
                               (map_to_list srcs))) + 1 in
    let identity (i : Z) :=
      Py.int ("25" +:+ Py.format_0d 6 anime_id +:+ Py.format_0d 2 source_order
                   +:+ Py.format_0d 4 i) in
    (forall (j : nat) (old : Episode),
       episodes_of rows sourceId !! j = Some old ->
       exists nid, identity (Z.of_nat j + 1) = Some nid /\
         ((orm_models.id old = nid /\
           orm_models.episodeIndex old = Z.of_nat j + 1) \/
          (exists ne : Episode, ne ∈ news /\ orm_models.id ne = nid /\
             orm_models.episodeIndex ne = Z.of_nat j + 1))) /\
    (forall ne : Episode, ne ∈ news ->
       exists (j : nat) (old : Episode),
         episodes_of rows sourceId !! j = Some old /\
         identity (Z.of_nat j + 1) = Some (orm_models.id ne) /\
         orm_models.episodeIndex ne = Z.of_nat j + 1 /\
         orm_models.sourceId ne = orm_models.sourceId old /\
         orm_models.title ne = orm_models.title old).
Proof.
  intros Hrun Hin.
  pose proof (reorder_staging faults base srcs rows sourceId
                (new_session dialect_name srcs rows fs calls)) as H.
  rewrite Hrun in H.
  assert (staging_ok srcs rows sourceId w) as Hst.
  { destruct r; apply H; repeat split; try done;
      intros ? Hx; by apply elem_of_nil in Hx. }
  destruct (Hst news Hin) as (anime_id & Hsrc & Hadds & Hall).
  exists anime_id. split; [done|]. split.
  - exact Hall.
  - intros ne Hne. destruct (Hadds ne Hne) as (j & old & Hj & Hid & Hidx & Hs & Ht & _).
    exists j, old. by repeat split.
Qed.

Lemma reorder_identity_encoding_witness :
  let run := reorder_episodes_task no_faults sample_base 2
               (new_session "mysql" sample_sources sample_rows sample_files ∅) in
  EvAddAll sample_news ∈ journal run.2 /\
  exists anime_id, sample_sources !! 2 = Some anime_id.
Proof.
  intros run.
  assert (EvAddAll sample_news ∈ journal run.2) as Hin.
  { vm_compute. repeat constructor. }
  split; [exact Hin|].
  destruct (reorder_identity_encoding no_faults sample_base 2 "mysql"
              sample_sources sample_rows sample_files ∅ run.1 run.2
              sample_news) as (anime_id & Hsrc & _).
  - apply surjective_pairing.
  - exact Hin.
  - exists anime_id. exact Hsrc.
Defined.


(** The rollback does not reach the file tree: the track file moved
    before the fault stays at its new place, while the restored row
    still names the old one. *)
Lemma reorder_failed_run_moves_file :
  let run := reorder_episodes_task (fault_at 12 lock_timeout) sample_base 2
               (new_session "mysql" sample_sources sample_rows sample_files ∅) in
  stored run.2 = sample_rows /\
  files run.2 !! "/app/config/danmaku/1/6.xml" = None /\
  is_Some (files run.2 !! "/app/config/danmaku/1/25000001020002.xml").
Proof. vm_compute. split; [reflexivity|]. split; [reflexivity|]. eauto. Qed.

(** C4.  When no collaborator faults and every episode of an existing
    source already has the identity encoded from its position and the
    index of its position (1..N), a run of the reorder job reports
    success with one of the two no-op messages, leaves the rows and the
    files as they are and stages nothing; so does the run after it. *)
Theorem reorder_noop_twice (faults : nat -> option exn) (base : string)
    (sourceId anime_id : Z) (rows : gmap Z EpisodeColumns) (w : World) :
  (forall n, faults n = None) ->
  session_clean rows w ->
  sources w !! sourceId = Some anime_id ->
  (forall (j : nat) (old : Episode),
     episodes_of rows sourceId !! j = Some old ->
     new_id anime_id (source_rank (sources w) anime_id sourceId)
            (Z.of_nat j + 1) = Some (orm_models.id old) /\
     orm_models.episodeIndex old = Z.of_nat j + 1) ->
  exists msg1 w1 msg2 w2 evs,
    reorder_episodes_task faults base sourceId w = (Raise (TaskSuccess msg1), w1) /\
    reorder_episodes_task faults base sourceId w1 = (Raise (TaskSuccess msg2), w2) /\
    (msg1 = msg_no_episodes \/ msg1 = msg_all_correct) /\
    (msg2 = msg_no_episodes \/ msg2 = msg_all_correct) /\
    stored w1 = rows /\ stored w2 = rows /\
    files w1 = files w /\ files w2 = files w /\
    journal w2 = journal w ++ evs /\
    Forall (fun ev => is_migration_event ev = false) evs.
Proof.
  intros Hnf Hclean Hsrc Hok.
  destruct (reorder_noop_once faults base Hnf sourceId anime_id rows w
              Hclean Hsrc Hok)
    as (msg1 & w1 & evs1 & Hrun1 & Hmsg1 & Hclean1 & Hsrcs1 & Hfs1 & Hj1 & Hev1).
  rewrite <- Hsrcs1 in Hsrc, Hok.
  destruct (reorder_noop_once faults base Hnf sourceId anime_id rows w1
              Hclean1 Hsrc Hok)
    as (msg2 & w2 & evs2 & Hrun2 & Hmsg2 & Hclean2 & Hsrcs2 & Hfs2 & Hj2 & Hev2).
  exists msg1, w1, msg2, w2, (evs1 ++ evs2).
  repeat split; try done.
  - by destruct Hclean1.
  - by destruct Hclean2.
  - by rewrite Hfs2.
  - by rewrite Hj2, Hj1, app_assoc.
  - by apply Forall_app.
Qed.

Lemma reorder_noop_twice_witness :
  exists msg1 w1 msg2 w2,
    reorder_episodes_task no_faults sample_base 1
      (new_session "mysql" sample_sources sample_rows sample_files ∅)
      = (Raise (TaskSuccess msg1), w1) /\
    reorder_episodes_task no_faults sample_base 1 w1
      = (Raise (TaskSuccess msg2), w2) /\
    stored w2 = sample_rows.
Proof.
  destruct (reorder_noop_twice no_faults sample_base 1 1 sample_rows
              (new_session "mysql" sample_sources sample_rows sample_files ∅))
    as (msg1 & w1 & msg2 & w2 & evs & H1 & H2 & _ & _ & _ & Hs & _).
  - reflexivity.
  - by repeat split.
  - vm_compute. reflexivity.
  - replace (episodes_of sample_rows 1)
      with [orm_models.mkEpisode 25000001010001 (sample_row 1 1 None)]
      by (vm_compute; reflexivity).
    intros [|j] old Hj; [|destruct j; discriminate Hj].
    injection Hj as <-. split; vm_compute; reflexivity.
  - exists msg1, w1, msg2, w2. auto.
Defined.

(** C3 fails on the code.  On MySQL, when the commit of line 728 (the one
    that follows the disabling statement) raises, the job ends with that
    exception and integrity checking is still off: the [finally] block
    that restores it guards only the block entered after that commit. *)
Theorem reorder_checks_left_disabled (base : string) (sourceId : Z)
    (srcs : gmap Z Z) (rows : gmap Z EpisodeColumns) (fs : gmap string ustr)
    (calls : gmap string nat) :
  let run := reorder_episodes_task (fault_at 2 lock_timeout) base sourceId
               (new_session "mysql" srcs rows fs calls) in
  run.1 = Raise lock_timeout /\
  fk_checks run.2 = false /\
  journal run.2 = [EvProgress 0 "正在获取分集列表..." None;
                   EvExecute 723 (SetForeignKeyChecks false)] /\
  stored run.2 = rows.
Proof. repeat split. Qed.

(** What the [finally] block does guarantee: in any run on a fresh
    session, once its restoring statement has been executed, integrity
    checking is on when the job ends. *)
Lemma reorder_restores_integrity (faults : nat -> option exn) (base : string)
    (sourceId : Z) (dialect_name : string) (srcs : gmap Z Z)
    (rows : gmap Z EpisodeColumns) (fs : gmap string ustr)
    (calls : gmap string nat) (r : result unit) (w : World) :
  reorder_episodes_task faults base sourceId
    (new_session dialect_name srcs rows fs calls) = (r, w) ->
  Exists is_restore (journal w) -> fk_checks w = true.
Proof.
  intros Hrun.
  pose proof (reorder_restored faults base sourceId
                (new_session dialect_name srcs rows fs calls)) as H.
  rewrite Hrun in H. destruct r; apply H; constructor.
Qed.

(* ----------------------------------------------------------------- *)
(** ** The comment codec *)

Lemma feed_all_app (st : parser) (a b : ustr) :
  feed_all st (a ++ b) = feed_all st a ≫= fun st' => feed_all st' b.
Proof.
  revert st; induction a as [|c a IH]; intros st; simpl; [done|].
  destruct (feed st c); simpl; [apply IH | done | done].
Qed.

Lemma run_parser_feed_all (st st' : parser) (a b : ustr) :
  feed_all st a = Some st' -> run_parser st (a ++ b) = run_parser st' b.
Proof.
  revert st; induction a as [|c a IH]; intros st; simpl.
  - by intros [= ->].
  - destruct (feed st c); [apply IH | done | done].
Qed.

Lemma strip_prefix_app (a b : ustr) : strip_prefix a (a ++ b) = Some b.
Proof. induction a as [|c a IH]; simpl; [done|]. by rewrite N.eqb_refl. Qed.

Ltac neq_tests :=
  repeat match goal with
         | |- context [N.eqb ?a ?b] =>
             let H := fresh in
             destruct (N.eqb_spec a b) as [H|H]; [lia|clear H]
         end.

(** Character data that needs no escape. *)
Lemma feed_text_char tg at_ t rest rd evs c :
  text_ok c -> c <> 60%N -> c <> 38%N -> c <> 62%N ->
  feed (mkParser (Content false) (mkOpen tg at_ t false :: rest) rd evs) c
  = Next (mkParser (Content false) (mkOpen tg at_ (t ++ [c]) false :: rest) rd evs).
Proof.
  intros [Hx H13] H60 H38 H62. unfold feed. simpl p_mode. rewrite Hx. simpl negb.
  cbv iota.
  destruct (N.eqb_spec c 60); [done|]. destruct (N.eqb_spec c 38); [done|].
  destruct (N.eqb_spec c 62); [done|]. destruct (N.eqb_spec c 13); [done|].
  destruct (N.eqb_spec c 10) as [->|]; done.
Qed.

Lemma feed_all_escaped_char tg at_ t rest rd evs c :
  text_ok c ->
  feed_all (mkParser (Content false) (mkOpen tg at_ t false :: rest) rd evs)
    (escape_char c)
  = Some (mkParser (Content false) (mkOpen tg at_ (t ++ [c]) false :: rest) rd evs).
Proof.
  intros Hc. unfold escape_char.
  destruct (N.eqb_spec c 38) as [->|H38]; [done|].
  destruct (N.eqb_spec c 62) as [->|H62]; [done|].
  destruct (N.eqb_spec c 60) as [->|H60]; [done|].
  simpl. by rewrite feed_text_char.
Qed.

(** Escaped text is read back as the text. *)
Lemma feed_all_escaped tg at_ t rest rd evs txt :
  Forall text_ok txt ->
  feed_all (mkParser (Content false) (mkOpen tg at_ t false :: rest) rd evs)
    (xml_escape txt)
  = Some (mkParser (Content false) (mkOpen tg at_ (t ++ txt) false :: rest) rd evs).
Proof.
  intros Htxt. revert t. induction Htxt as [|c txt Hc Htxt IH]; intros t.
  - simpl. by rewrite app_nil_r.
  - unfold xml_escape. simpl flat_map. rewrite feed_all_app.
    rewrite feed_all_escaped_char by done. simpl.
    fold (xml_escape txt). rewrite IH. by rewrite <- app_assoc.
Qed.

(** An attribute value without quote, [<], [&] or blanks to normalise
    is read back as it is. *)
Lemma feed_all_attr_value name attrs key val stk rd evs pa :
  Forall attr_ok pa ->
  feed_all (mkParser (AttrValue name attrs key 34 val false) stk rd evs) pa
  = Some (mkParser (AttrValue name attrs key 34 (val ++ pa) false) stk rd evs).
Proof.
  intros Hpa. revert val. induction Hpa as [|c pa Hc Hpa IH]; intros val.
  - simpl. by rewrite app_nil_r.
  - destruct Hc as (Hx & H34 & H60 & H38 & H13 & H10 & H9).
    simpl. unfold feed. simpl p_mode. rewrite Hx. simpl negb. cbv iota.
    destruct (N.eqb_spec c 34); [done|]. destruct (N.eqb_spec c 60); [done|].
    destruct (N.eqb_spec c 38); [done|]. destruct (N.eqb_spec c 13); [done|].
    destruct (N.eqb_spec c 10); [done|]. destruct (N.eqb_spec c 9); [done|].
    unfold set_mode. simpl. rewrite IH. by rewrite <- app_assoc.
Qed.

Lemma u_cons (a : ascii) (s : string) : u (String a s) = N_of_ascii a :: u s.
Proof. done. Qed.

Lemma digit_char_code (d : Z) :
  0 <= d < 10 -> N_of_ascii (Py.digit_char d) = (48 + Z.to_N d)%N.
Proof.
  intros Hd. unfold Py.digit_char.
  assert (d = 0 \/ d = 1 \/ d = 2 \/ d = 3 \/ d = 4 \/ d = 5 \/ d = 6 \/
          d = 7 \/ d = 8 \/ d = 9) as H by lia.
  repeat (destruct H as [->|H]; [done|]). by subst.
Qed.

Lemma digits_go_codes (f : nat) (n : Z) (acc : string) :
  0 <= n -> Forall digit_code (u acc) ->
  Forall digit_code (u (Py.digits_go f n acc)).
Proof.
  revert n acc. induction f as [|f IH]; intros n acc Hn Hacc.
  - cbn [Py.digits_go]. rewrite u_cons. constructor; [|done].
    rewrite digit_char_code by (apply Z.mod_pos_bound; lia).
    pose proof (Z.mod_pos_bound n 10 ltac:(lia)). unfold digit_code. lia.
  - cbn [Py.digits_go].
    assert (Forall digit_code (u (String (Py.digit_char (n mod 10)) acc))) as H.
    { rewrite u_cons. constructor; [|done].
      rewrite digit_char_code by (apply Z.mod_pos_bound; lia).
      pose proof (Z.mod_pos_bound n 10 ltac:(lia)). unfold digit_code. lia. }
    destruct (Z.ltb n 10); [done|].
    apply IH; [apply Z.div_pos; lia | done].
Qed.

Lemma str_count_codes (k : nat) : Forall digit_code (u (Py.str (Z.of_nat k))).
Proof.
  unfold Py.str. destruct (Z.ltb_spec (Z.of_nat k) 0); [lia|].
  apply digits_go_codes; [lia | constructor].
Qed.

Lemma digit_code_text_ok (c : N) : digit_code c -> text_ok c.
Proof.
  intros [H1 H2]. split; [|lia]. unfold is_xml_char.
  destruct (N.leb_spec 32 c); [|lia]. destruct (N.leb_spec c 55295); [|lia].
  by rewrite !orb_true_r.
Qed.

Lemma xml_escape_digits (s : ustr) : Forall digit_code s -> xml_escape s = s.
Proof.
  induction 1 as [|c s [H1 H2] Hs IH]; [done|].
  unfold xml_escape in *. simpl. rewrite IH. unfold escape_char.
  destruct (N.eqb_spec c 38); [lia|]. destruct (N.eqb_spec c 62); [lia|].
  destruct (N.eqb_spec c 60); [lia|]. done.
Qed.

(** The header of a generated document, read up to the first [d]. *)
Lemma run_parser_header (count rest : ustr) :
  Forall digit_code count ->
  run_parser (mkParser (Content false) [] false [])
    ([10%N] ++ u "<i>" ++ [10%N] ++ u "  <chatserver>danmu</chatserver>"
       ++ [10%N] ++ u "  <chatid>0</chatid>" ++ [10%N]
       ++ u "  <mission>0</mission>" ++ [10%N]
       ++ u "  <maxlimit>" ++ count ++ u "</maxlimit>" ++ [10%N]
       ++ u "  <source>kuyun</source>" ++ [10%N] ++ rest)
  = run_parser (in_root (header_events count)) rest.
Proof.
  intros Hcount.
  change ([10%N] ++ u "<i>" ++ [10%N] ++ u "  <chatserver>danmu</chatserver>"
       ++ [10%N] ++ u "  <chatid>0</chatid>" ++ [10%N]
       ++ u "  <mission>0</mission>" ++ [10%N]
       ++ u "  <maxlimit>" ++ count ++ u "</maxlimit>" ++ [10%N]
       ++ u "  <source>kuyun</source>" ++ [10%N] ++ rest)
    with (([10%N] ++ u "<i>" ++ [10%N] ++ u "  <chatserver>danmu</chatserver>"
       ++ [10%N] ++ u "  <chatid>0</chatid>" ++ [10%N]
       ++ u "  <mission>0</mission>" ++ [10%N] ++ u "  <maxlimit>")
       ++ count ++ (u "</maxlimit>" ++ [10%N]
       ++ u "  <source>kuyun</source>" ++ [10%N]) ++ rest).
  erewrite run_parser_feed_all; [|vm_compute; reflexivity].
  assert (Forall text_ok count) as Hok
    by (eapply Forall_impl; [exact Hcount | exact digit_code_text_ok]).
  match goal with
  | |- run_parser (mkParser _ (mkOpen ?tg ?at_ ?t false :: ?stk) ?rd ?evs) _ = _ =>
      pose proof (feed_all_escaped tg at_ t stk rd evs count Hok) as H
  end.
  rewrite xml_escape_digits in H by done.
  rewrite (run_parser_feed_all _ _ _ _ H).
  erewrite run_parser_feed_all; [|vm_compute; reflexivity].
  reflexivity.
Qed.

(** One emitted [d] element and the line break after it. *)
Lemma run_parser_d_element (evs : list element) (c : comment) (rest : ustr) :
  survives c ->
  Forall attr_ok (emit_p_attr (default default_p_attr (dict.p c))) ->
  run_parser (in_root evs) (d_element c ++ [10%N] ++ rest)
  = run_parser (in_root (evs ++ [d_event c])) rest.
Proof.
  intros (pa & txt & -> & Hne & Htxt & _) Hpa.
  unfold d_element, d_event. cbn [dict.p dict.m] in *.
  change (default default_p_attr (Some pa)) with pa in *.
  change (default [] (Some txt)) with txt.
  set (P := emit_p_attr pa) in *.
  destruct txt as [|c0 txt]; [done|].
  rewrite <- !app_assoc.
  change (u "  <d p=" ++ [34%N] ++ P ++ [34%N] ++ u ">"
            ++ xml_escape (c0 :: txt) ++ u "</d>" ++ [10%N] ++ rest)
    with ((u "  <d p=" ++ [34%N]) ++ P ++ ([34%N] ++ u ">")
            ++ xml_escape (c0 :: txt) ++ (u "</d>" ++ [10%N]) ++ rest).
  unfold in_root.
  erewrite (run_parser_feed_all _ _ (u "  <d p=" ++ [34%N]));
    [|vm_compute; reflexivity].
  erewrite (run_parser_feed_all _ _ P); [|by apply feed_all_attr_value].
  erewrite (run_parser_feed_all _ _ ([34%N] ++ u ">"));
    [|vm_compute; reflexivity].
  erewrite (run_parser_feed_all _ _ (xml_escape (c0 :: txt)));
    [|by apply feed_all_escaped].
  erewrite (run_parser_feed_all _ _ (u "</d>" ++ [10%N]));
    [|vm_compute; reflexivity].
  reflexivity.
Qed.

Lemma run_parser_d_elements (evs : list element) (cs : list comment)
    (rest : ustr) :
  Forall survives cs ->
  Forall (fun c => Forall attr_ok
                     (emit_p_attr (default default_p_attr (dict.p c)))) cs ->
  run_parser (in_root evs) (flat_map (fun c => d_element c ++ [10%N]) cs ++ rest)
  = run_parser (in_root (evs ++ map d_event cs)) rest.
Proof.
  intros Hs. revert evs. induction Hs as [|c cs Hc Hcs IH]; intros evs Hp.
  - simpl. by rewrite app_nil_r.
  - apply Forall_cons in Hp as [Hpc Hp].
    cbn [flat_map]. rewrite <- !app_assoc.
    rewrite run_parser_d_element by done.
    rewrite IH by done. cbn [map]. by rewrite <- app_assoc.
Qed.

Lemma run_parser_root_end (evs : list element) :
  run_parser (in_root evs) (u "</i>")
  = (mkParser (Content false) [] true
       (evs ++ [mkElement (u "i") [] (Some [10%N; 32%N; 32%N])]),
     Complete).
Proof. vm_compute. reflexivity. Qed.

Lemma join_cons_nonempty (sep x : ustr) (l : list ustr) :
  l <> [] -> join sep (x :: l) = x ++ sep ++ join sep l.
Proof. by destruct l. Qed.

Lemma join_lines (f : comment -> ustr) (cs : list comment) (e : ustr) :
  join [10%N] (map f cs ++ [e]) = flat_map (fun c => f c ++ [10%N]) cs ++ e.
Proof.
  induction cs as [|c cs IH]; [done|].
  simpl map. rewrite <- app_comm_cons.
  rewrite join_cons_nonempty by (by destruct (map f cs)).
  rewrite IH. cbn [flat_map]. by rewrite <- !app_assoc.
Qed.

(** A generated document, piece by piece. *)
Lemma generated_document (cs : list comment) :
  _generate_dandan_xml cs
  = xml_declaration
      ++ [10%N] ++ u "<i>" ++ [10%N] ++ u "  <chatserver>danmu</chatserver>"
      ++ [10%N] ++ u "  <chatid>0</chatid>" ++ [10%N]
      ++ u "  <mission>0</mission>" ++ [10%N]
      ++ u "  <maxlimit>" ++ u (Py.str (Z.of_nat (length cs)))
      ++ u "</maxlimit>" ++ [10%N]
      ++ u "  <source>kuyun</source>" ++ [10%N]
      ++ flat_map (fun c => d_element c ++ [10%N]) cs ++ u "</i>".
Proof.
  unfold _generate_dandan_xml, dandan_header.
  cbn [app].
  repeat (rewrite join_cons_nonempty by done).
  rewrite join_cons_nonempty by (by destruct (map d_element cs)).
  rewrite join_lines. by rewrite <- !app_assoc.
Qed.

(** What the parser delivers for a generated document. *)
Lemma iterparse_generated (cs : list comment) :
  Forall survives cs ->
  Forall (fun c => Forall attr_ok
                     (emit_p_attr (default default_p_attr (dict.p c)))) cs ->
  iterparse (_generate_dandan_xml cs)
  = (header_events (u (Py.str (Z.of_nat (length cs))))
       ++ map d_event cs ++ [mkElement (u "i") [] (Some [10%N; 32%N; 32%N])],
     Complete).
Proof.
  intros Hs Hp. unfold iterparse.
  rewrite generated_document, strip_prefix_app.
  match goal with
  | |- context [default ?d (Some ?x)] => change (default d (Some x)) with x
  end.
  rewrite run_parser_header by apply str_count_codes.
  rewrite run_parser_d_elements by done.
  rewrite run_parser_root_end. cbn [p_events]. by rewrite <- app_assoc.
Qed.

Lemma split_Forall (Q : N -> Prop) (sep : N) (s : ustr) :
  Forall Q s -> Forall (Forall Q) (split sep s).
Proof.
  induction 1 as [|c s Hc Hs IH]; simpl; [by repeat constructor|].
  destruct (N.eqb c sep); [by constructor|].
  destruct (split sep s) as [|part parts]; [by repeat constructor|].
  apply Forall_cons in IH as [? ?]. by repeat constructor.
Qed.

Lemma join_Forall (Q : N -> Prop) (sep : ustr) (parts : list ustr) :
  Forall Q sep -> Forall (Forall Q) parts -> Forall Q (join sep parts).
Proof.
  intros Hsep. induction 1 as [|x parts Hx Hparts IH]; simpl; [constructor|].
  destruct parts; [done|]. rewrite !Forall_app. auto.
Qed.

Lemma attr_ok_digit (c : N) : digit_code c -> attr_ok c.
Proof.
  intros [H1 H2]. unfold attr_ok. repeat split; try lia.
  unfold is_xml_char.
  destruct (N.leb_spec 32 c); [|lia]. destruct (N.leb_spec c 55295); [|lia].
  by rewrite !orb_true_r.
Qed.

Lemma emit_p_attr_ok (pa : ustr) :
  Forall attr_ok pa -> Forall attr_ok (emit_p_attr pa).
Proof.
  intros Hpa. unfold emit_p_attr. destruct (Nat.eqb _ 3); [|done].
  apply join_Forall.
  - constructor; [|constructor]. by vm_compute.
  - unfold list_insert_at. apply Forall_app. split.
    + by apply Forall_take, split_Forall.
    + constructor; [|by apply Forall_drop, split_Forall].
      change (u "25") with [50%N; 53%N].
      repeat (constructor; [apply attr_ok_digit; unfold digit_code; lia|]).
      constructor.
Qed.

Lemma split_no_sep (sep : N) (s : ustr) :
  Forall (fun part => sep ∉ part) (split sep s).
Proof.
  induction s as [|c s IH]; simpl.
  - repeat constructor. apply not_elem_of_nil.
  - destruct (N.eqb_spec c sep) as [->|Hne].
    + constructor; [apply not_elem_of_nil | done].
    + destruct (split sep s) as [|part parts].
      * repeat constructor. intros H. apply elem_of_cons in H as [?|H]; [done|].
        by apply elem_of_nil in H.
      * apply Forall_cons in IH as [Hp Hps]. constructor; [|done].
        intros H. apply elem_of_cons in H as [?|H]; [done | by apply Hp].
Qed.

Lemma split_app_cons (sep : N) (a b : ustr) :
  sep ∉ a -> split sep (a ++ sep :: b) = a :: split sep b.
Proof.
  induction a as [|c a IH]; intros Ha; simpl.
  - by rewrite N.eqb_refl.
  - destruct (N.eqb_spec c sep) as [->|Hne]; [exfalso; apply Ha; left|].
    rewrite IH; [done|]. intros H. apply Ha. by right.
Qed.

Lemma split_app_sep (sep : N) (a b : ustr) :
  sep ∉ a -> split sep (a ++ [sep] ++ b) = a :: split sep b.
Proof. apply split_app_cons. Qed.

Lemma split_nil_sep (sep : N) (a : ustr) : sep ∉ a -> split sep a = [a].
Proof.
  induction a as [|c a IH]; intros Ha; simpl; [done|].
  destruct (N.eqb_spec c sep) as [->|Hne]; [exfalso; apply Ha; left|].
  rewrite IH; [done|]. intros H. apply Ha. by right.
Qed.

Lemma split_join (sep : N) (parts : list ustr) :
  parts <> [] -> Forall (fun part => sep ∉ part) parts ->
  split sep (join [sep] parts) = parts.
Proof.
  intros Hne Hparts. induction Hparts as [|x parts Hx Hparts IH]; [done|].
  destruct parts as [|y parts].
  - simpl. by apply split_nil_sep.
  - rewrite join_cons_nonempty by done.
    rewrite split_app_sep by done. by rewrite IH.
Qed.

Lemma parse_event_d (acc : list comment) (c : comment) (txt : ustr) :
  dict.m c = Some txt ->
  parse_event acc (d_event c) = acc ++ [reparsed c].
Proof.
  intros Hm. unfold parse_event, d_event, reparsed. cbn [tag attrib text].
  change (ustr_eqb (u "d") (u "d")) with true. cbv iota.
  change (attrib_get (u "p") [(u "p", ?x)]) with (Some x).
  rewrite Hm.
  by destruct (split 44 _) as [|p0 [|p1 [|p2 [|p3 r]]]].
Qed.

Lemma fold_parse_events (acc : list comment) (cs : list comment) :
  Forall survives cs ->
  fold_left parse_event (map d_event cs) acc = acc ++ map reparsed cs.
Proof.
  intros Hs. revert acc. induction Hs as [|c cs Hc Hcs IH]; intros acc.
  - simpl. by rewrite app_nil_r.
  - destruct Hc as (pa & txt & Hceq & _). cbn [map fold_left].
    rewrite (parse_event_d acc c txt) by (by subst c).
    rewrite IH. by rewrite <- app_assoc.
Qed.

Lemma core_tuple_reparsed (c : comment) :
  core_tuple (reparsed c) = core_tuple (with_default_size c).
Proof.
  unfold core_tuple, reparsed, with_default_size. cbn [dict.p dict.m].
  f_equal.
  change (default default_p_attr (Some ?x)) with x.
  set (P := emit_p_attr _).
  pose proof (split_no_sep 44 P) as Hns.
  destruct (split 44 P) as [|p0 [|p1 [|p2 [|p3 r]]]] eqn:Hsplit;
    cbv iota; rewrite ?Hsplit; try done.
  apply Forall_cons in Hns as [H0 Hns]. apply Forall_cons in Hns as [H1 Hns].
  apply Forall_cons in Hns as [H2 Hns]. apply Forall_cons in Hns as [H3 Hns].
  rewrite !split_app_sep by done. done.
Qed.

(** What the parser returns for a generated document. *)
Lemma parse_generated (cs : list comment) :
  Forall survives cs ->
  (iterparse (_generate_dandan_xml cs)).2 = Complete /\
  _parse_xml_content (_generate_dandan_xml cs) = map reparsed cs.
Proof.
  intros Hs.
  assert (Forall (fun c => Forall attr_ok
                     (emit_p_attr (default default_p_attr (dict.p c)))) cs) as Hp.
  { eapply Forall_impl; [exact Hs|]. intros c (pa & txt & -> & _ & _ & Hpa).
    by apply emit_p_attr_ok. }
  unfold _parse_xml_content. rewrite iterparse_generated by done.
  split; [done|]. cbn [fst].
  rewrite !fold_left_app.
  change (fold_left parse_event (header_events ?x) []) with (@nil comment).
  by rewrite fold_parse_events.
Qed.

Lemma find_tag_bound (parts : list ustr) (k i : nat) :
  find_tag parts k = Some i -> (k <= i < k + length parts)%nat.
Proof.
  revert k. induction parts as [|part parts IH]; intros k; simpl; [done|].
  destruct (_ && _).
  - intros [= <-]. lia.
  - intros H. apply IH in H. lia.
Qed.

(** When the core fields are three, the emitted attribute has the
    default size between the second and the third. *)
Lemma emit_p_attr_three (pa : ustr) :
  core_parts_count (split 44 pa) = 3%nat ->
  exists t md col rest,
    split 44 pa = t :: md :: col :: rest /\
    split 44 (emit_p_attr pa) = t :: md :: u "25" :: col :: rest.
Proof.
  intros H3. unfold emit_p_attr. rewrite H3. cbn [Nat.eqb].
  pose proof (split_no_sep 44 pa) as Hns.
  assert (3 <= length (split 44 pa))%nat as Hlen.
  { unfold core_parts_count in H3.
    destruct (find_tag (split 44 pa) 0) as [i|] eqn:Hf; simpl in H3.
    - apply find_tag_bound in Hf. lia.
    - lia. }
  destruct (split 44 pa) as [|t [|md [|col rest]]]; simpl in Hlen; try lia.
  exists t, md, col, rest. split; [done|].
  unfold list_insert_at. cbn [take drop app].
  apply split_join; [done|].
  apply Forall_cons in Hns as [? Hns]. apply Forall_cons in Hns as [? Hns].
  repeat (constructor; [done|]). constructor; [|done].
  intros Hin. change (u "25") with [50%N; 53%N] in Hin.
  repeat (apply elem_of_cons in Hin as [Hin|Hin]; [done|]).
  by apply elem_of_nil in Hin.
Qed.

(** C7 (amended).  For every list of comments that carry both keys and
    whose texts are non-empty and free of carriage returns and of
    characters XML forbids, and whose packed attributes are free of
    double quotes, [<], [&], tabs, line breaks and forbidden characters:
    the generated document parses to the end and yields, entry for
    entry, the same text and the same first four packed fields (time,
    mode, size, color), except that an attribute with three core fields
    comes back with the default size 25 between mode and color. *)
Theorem codec_round_trip (comments : list comment) :
  Forall survives comments ->
  (iterparse (_generate_dandan_xml comments)).2 = Complete /\
  Forall2
    (fun c c' =>
       dict.m c' = dict.m c /\
       exists pa, dict.p c = Some pa /\
         (core_parts_count (split 44 pa) <> 3%nat ->
          (core_tuple c').1 = take 4 (split 44 pa)) /\
         (core_parts_count (split 44 pa) = 3%nat ->
          exists t md col rest,
            split 44 pa = t :: md :: col :: rest /\
            (core_tuple c').1 = [t; md; u "25"; col]))
    comments (_parse_xml_content (_generate_dandan_xml comments)).
Proof.
  intros Hs. destruct (parse_generated comments Hs) as [Hend ->].
  split; [done|].
  apply Forall2_fmap_r, Forall_Forall2_diag.
  eapply Forall_impl; [exact Hs|].
  intros c (pa & txt & -> & _). split; [done|].
  exists pa. split; [done|].
  rewrite core_tuple_reparsed. unfold core_tuple, with_default_size.
  cbn [dict.p dict.m fst]. change (default default_p_attr (Some pa)) with pa.
  change (default default_p_attr (Some (emit_p_attr pa))) with (emit_p_attr pa).
  split.
  - intros Hne. unfold emit_p_attr. cbv zeta.
    by rewrite (proj2 (Nat.eqb_neq _ _) Hne).
  - intros H3. destruct (emit_p_attr_three pa H3) as (t & md & col & rest & H1 & H2).
    exists t, md, col, rest. split; [done|]. by rewrite H2.
Qed.

Lemma codec_round_trip_witness :
  survives plain_comment /\
  (iterparse (_generate_dandan_xml [plain_comment])).2 = Complete.
Proof.
  assert (survives plain_comment) as Hs.
  { exists (u "2.0,4,255,[bili]x"), (u "a < b & c").
    split; [reflexivity|]. split; [discriminate|]. split.
    - repeat (constructor; [split; [reflexivity | discriminate]|]). constructor.
    - repeat (constructor;
              [split; [reflexivity | repeat split; discriminate]|]).
      constructor. }
  split; [exact Hs|].
  apply (codec_round_trip [plain_comment]).
  constructor; [exact Hs | constructor].
Defined.

(** C7 as stated fails: a comment with an empty text is emitted as an
    empty [d] element, whose [text] is [None], and the parser drops it. *)
Lemma codec_round_trip_drops_empty_text :
  (iterparse (_generate_dandan_xml [empty_comment])).2 = Complete /\
  _parse_xml_content (_generate_dandan_xml [empty_comment]) = [] /\
  map core_tuple (_parse_xml_content (_generate_dandan_xml [empty_comment]))
  <> map (fun c => core_tuple (with_default_size c)) [empty_comment].
Proof.
  split; [vm_compute; reflexivity|]. split; [vm_compute; reflexivity|].
  vm_compute. discriminate.
Qed.

(* ================================================================= *)
(** * The episode loop of the import pipeline *)

Section Pipeline.

Variable faults : nat -> option exn.
Variable base : string.
Variable int_scaled : Z -> Z -> Z -> Z.
Variable crud_update : Z -> string -> Z -> M unit.
Variable crud_create : Z -> Z -> Z -> string -> string -> string -> M Z.
Variable fetched : nat -> string -> list comment.
Variable format_0f : Q -> string.

#[local] Abbreviation pass :=
  (process_episode faults base int_scaled crud_update crud_create fetched
     format_0f).
#[local] Abbreviation loop fuel :=
  (process_loop faults base int_scaled crud_update crud_create fetched
     format_0f fuel).

Ltac run_call H :=
  unfold await at 1; cbn [clock tick record]; rewrite H.

(** C5: when the rate limiter's check raises the rate-limit signal during
    the pass for episode [i], the pass reports PAUSED with the signal's
    wait, sleeps for that wait and leaves the loop state as it was: the
    index, the count of added comments and the count of failed episodes
    are unchanged, the rate budget, the rows and the files are untouched,
    and the loop goes on with episode [i] again. *)
Theorem rate_limit_pauses_and_retries
    (episodes : list models.ProviderEpisodeInfo) (provider : string)
    (anime_id source_id : Z) (st : loop_state) (w : World)
    (episode : models.ProviderEpisodeInfo) (retry_after : Q) (fuel : nat) :
  episodes !! loop_i st = Some episode ->
  faults (clock w) = None ->
  faults (S (clock w)) = Some (RateLimitExceededError retry_after) ->
  faults (S (S (clock w))) = None ->
  faults (S (S (S (clock w)))) = None ->
  exists w',
    pass episodes provider anime_id source_id st w = (Ok st, w') /\
    journal w' =
      journal w ++
        [EvProgress (base_progress int_scaled (loop_i st) (length episodes))
           (msg_processing episode (loop_i st) (length episodes)) None;
         EvProgress (base_progress int_scaled (loop_i st) (length episodes))
           (msg_rate_limited format_0f retry_after) (Some PAUSED);
         EvSleep retry_after] /\
    budget w' = budget w /\ stored w' = stored w /\ view w' = view w /\
    files w' = files w /\
    loop (S fuel) episodes provider anime_id source_id st w
    = loop fuel episodes provider anime_id source_id st w'.
Proof.
  intros Hep H0 H1 H2 H3.
  assert (Hpass : exists w',
    pass episodes provider anime_id source_id st w = (Ok st, w') /\
    journal w' =
      journal w ++
        [EvProgress (base_progress int_scaled (loop_i st) (length episodes))
           (msg_processing episode (loop_i st) (length episodes)) None;
         EvProgress (base_progress int_scaled (loop_i st) (length episodes))
           (msg_rate_limited format_0f retry_after) (Some PAUSED);
         EvSleep retry_after] /\
    budget w' = budget w /\ stored w' = stored w /\ view w' = view w /\
    files w' = files w).
  { unfold process_episode. rewrite Hep.
    unfold bind at 1. unfold progress_callback at 1. run_call H0.
    unfold bind at 1. unfold try_except.
    unfold bind at 1. unfold rate_limiter_check. run_call H1.
    unfold fetch_handler.
    unfold bind at 1. unfold progress_callback. run_call H2.
    unfold bind at 1. unfold asyncio_sleep. run_call H3.
    unfold ret. eexists. split; [reflexivity|].
    cbn [journal budget stored view files record tick].
    rewrite <- !app_assoc. done. }
  destruct Hpass as (w' & Hrun & Hrest).
  exists w'. split; [exact Hrun|].
  destruct Hrest as (? & ? & ? & ? & ?). repeat (split; [assumption|]).
  cbn [process_loop].
  apply lookup_lt_Some in Hep.
  destruct (Nat.ltb_spec (loop_i st) (length episodes)) as [_|?]; [|lia].
  unfold bind at 1. by rewrite Hrun.
Qed.

End Pipeline.

Lemma rate_limit_pauses_and_retries_witness :
  exists w',
    process_episode (fault_at 1 rate_limited) sample_base sample_int_scaled
      sample_update sample_create sample_fetched sample_format_0f
      sample_episodes "bilibili" 1 2 (mkLoop 0 0 0)
      (new_session "mysql" sample_sources sample_rows sample_files ∅)
    = (Ok (mkLoop 0 0 0), w') /\
    journal w' =
      [EvProgress 10 (msg_processing (models.mkInfo "one" 1 "http://v/1" "p1") 0 2)
         None;
       EvProgress 10 (msg_rate_limited sample_format_0f (30 # 1)) (Some PAUSED);
       EvSleep (30 # 1)] /\
    budget w' = ∅.
Proof.
  destruct (rate_limit_pauses_and_retries (fault_at 1 rate_limited) sample_base
              sample_int_scaled sample_update sample_create sample_fetched
              sample_format_0f sample_episodes "bilibili" 1 2 (mkLoop 0 0 0)
              (new_session "mysql" sample_sources sample_rows sample_files ∅)
              (models.mkInfo "one" 1 "http://v/1" "p1") (30 # 1) 0
              eq_refl eq_refl eq_refl eq_refl eq_refl)
    as (w' & Hrun & Hj & Hb & _).
  exists w'. split; [exact Hrun|]. split; [exact Hj|exact Hb].
Defined.

(** C6: a transport fault raised by the fetch of the first episode
    reaches the clause [except httpx.RequestError]; since the module binds
    no name [httpx], evaluating the clause raises [NameError], which
    leaves the loop and the function: nothing is counted, nothing is
    reported as skipped, and the second episode is never processed. *)
Theorem network_fault_aborts_pipeline :
  ("httpx" ∉ tasks_globals) /\
  forall fuel,
    let run :=
      _process_episode_list (fault_at 2 RequestError) sample_base
        sample_int_scaled sample_update sample_create sample_fetched
        sample_format_0f (S fuel) sample_episodes "bilibili" 1 2
        (new_session "mysql" sample_sources sample_rows sample_files ∅) in
    run.1 = Raise (NameError "httpx") /\
    journal run.2 =
      [EvProgress 10 (msg_processing (models.mkInfo "one" 1 "http://v/1" "p1") 0 2)
         None;
       EvCheck "bilibili"].
Proof.
  split; [by apply (proj1 (bool_decide_eq_false _)); vm_compute|].
  intros fuel. cbv zeta. split; reflexivity.
Qed.

(* ================================================================= *)
(** * Bulk deletion of episodes *)


Lemma lookups_app (j1 j2 : list event) :
  lookups (j1 ++ j2) = lookups j1 ++ lookups j2.
Proof. apply omap_app. Qed.

Lemma idle_step_refl (w : World) : idle_step w w.
Proof.
  repeat (split; [reflexivity|]). exists []. by rewrite app_nil_r.
Qed.

Lemma idle_step_trans (w1 w2 w3 : World) :
  idle_step w1 w2 -> idle_step w2 w3 -> idle_step w1 w3.
Proof.
  intros (Hs & Hv & Hd & Ha & e1 & Hj & Hl & Hc)
         (Hs' & Hv' & Hd' & Ha' & e2 & Hj' & Hl' & Hc').
  repeat (split; [congruence|]).
  exists (e1 ++ e2). rewrite Hj', Hj, app_assoc. split; [done|].
  rewrite lookups_app, Hl, Hl'. split; [done|]. by apply Forall_app.
Qed.

Lemma idle_step_tick (w : World) : idle_step w (tick w).
Proof.
  repeat (split; [reflexivity|]). exists []. cbn [journal tick].
  by rewrite app_nil_r.
Qed.

Lemma idle_step_record (ev : event) (w : World) :
  lookups [ev] = [] -> calm ev -> idle_step w (record ev w).
Proof.
  intros Hl Hc. repeat (split; [reflexivity|]). exists [ev].
  split; [done|]. split; [done|]. by constructor.
Qed.

Section BulkDelete.

Variable faults : nat -> option exn.
Variable base : string.
Variable int_scaled : Z -> Z -> Z -> Z.

Lemma await_cases {A} (effect : M A) (w : World) :
  (exists e, faults (clock w) = Some e /\
             await faults effect w = (Raise e, tick w)) \/
  (faults (clock w) = None /\ await faults effect w = effect (tick w)).
Proof.
  unfold await. destruct (faults (clock w)) as [e|]; [left|right]; eauto.
Qed.

(** Removing a track file never raises, and it touches neither the rows
    nor the session. *)
Lemma delete_danmaku_file_idle (path : option string) (w : World) :
  exists w', _delete_danmaku_file faults base path w = (Ok tt, w') /\
             idle_step w w'.
Proof.
  unfold _delete_danmaku_file.
  destruct path as [s|]; [|exists w; split; [done|apply idle_step_refl]].
  destruct (String.eqb s ""); [exists w; split; [done|apply idle_step_refl]|].
  unfold try_except.
  destruct (is_file _ w) eqn:Hfile;
    [|exists w; split; [done|apply idle_step_refl]].
  unfold path_unlink.
  destruct (await_cases
              (fun w0 =>
                 match files w0 !! path_join (path_parent base) (lstrip_slash s) with
                 | Some _ =>
                     (Ok tt,
                      record (EvUnlink (path_join (path_parent base) (lstrip_slash s)))
                        (set_files
                           (delete (path_join (path_parent base) (lstrip_slash s))
                              (files w0)) w0))
                 | None => (Raise OSError, w0)
                 end) w) as [(e & _ & ->) | (_ & ->)].
  - exists (tick w). split; [done|apply idle_step_tick].
  - cbn [files tick].
    destruct (files w !! _) as [t|].
    + eexists. split; [reflexivity|].
      apply (idle_step_record (EvUnlink _) (set_files _ (tick w))); done.
    + exists (tick w). split; [done|apply idle_step_tick].
Qed.


Ltac call prim :=
  unfold bind at 1; unfold prim at 1; unfold await at 1;
  cbn [clock tick record set_files set_session set_stored];
  match goal with
  | |- context [match faults ?c with _ => _ end] =>
      let e := fresh "e" in
      let He := fresh "He" in
      destruct (faults c) as [e|] eqn:He
  end.







End BulkDelete.

